(** * myshell.c: a shallow embedding and its verified properties

    The program is a read-parse-dispatch loop over nine built-in commands,
    each a thin wrapper around one POSIX call.  The development has these
    parts:

    - [Libc]: the C library routines the shell calls on strings
      ([isspace], [strnlen], [strncmp], [sscanf] for the formats used,
      [fgets], the [%-30s] and [%i] conversions);
    - [Fs]: a tree model of the file system and of the system calls
      ([chdir], [getcwd], [opendir]/[readdir], [stat], [open]/[read],
      [mkdir], [rmdir], [unlink]);
    - [Shell]: the functions of myshell.c, written over an explicit [world];
    - [Buffer]: [strip_trailing_whitespace] once more, at the level of the
      bytes it touches, to reason about the offsets of its backward scan;
    - [Spec]: the words of the specification (keywords, first token, the
      diagnostic, a line of a listing);
    - [Sample]: a small concrete world;
    - the properties. *)

From Stdlib Require Import ZArith NArith List Bool Ascii String Lia.
From Stdlib Require Import Permutation DecimalString.
Import ListNotations.

Set Warnings "-register-all".

Open Scope string_scope.
Open Scope nat_scope.

(** ** Sizes fixed by the source *)

Definition MAX_PATH_LENGTH : nat := 256.
Definition MAX_BUFFER_LENGTH : nat := 256.
Definition MAX_FILENAME_LENGTH : nat := 256.

(** ** The C library, on strings *)

Module Libc.

Definition NUL : ascii := "000"%char.
Definition TAB : ascii := "009"%char.
Definition LF : ascii := "010"%char.
Definition tab : string := String TAB "".
Definition nl : string := String LF "".

(** [isspace] in the C locale: space, and the five controls 9..13. *)
Definition isspace (c : ascii) : bool :=
  let n := N_of_ascii c in
  (((9 <=? n) && (n <=? 13)) || (n =? 32))%N.

(** The C string held by an array of bytes: what precedes the first NUL. *)
Fixpoint c_str (bytes : string) : string :=
  match bytes with
  | EmptyString => EmptyString
  | String c rest => if Ascii.eqb c NUL then EmptyString else String c (c_str rest)
  end.

Definition strnlen (s : string) (maxlen : nat) : nat :=
  Nat.min (String.length s) maxlen.

(** [strncpy (dst, src, n)], as the C string then found at [dst]: when
    [src] has fewer than [n] bytes it is [src]; otherwise [n] bytes are
    copied and no NUL is stored, so the string runs on into [beyond], the
    bytes that follow the [n] copied ones in memory. *)
Definition strncpy (src : string) (n : nat) (beyond : string) : string :=
  if String.length src <? n then src
  else String.substring 0 n src ++ beyond.

Definition char_code (c : ascii) : Z := Z.of_N (N_of_ascii c).

(** [strncmp]: the difference of the first two bytes that differ among the
    first [n], 0 when there is none. *)
Fixpoint strncmp (a b : string) (n : nat) : Z :=
  match n with
  | O => 0
  | S n' =>
      match a, b with
      | EmptyString, EmptyString => 0
      | EmptyString, String cb _ => (0 - char_code cb)
      | String ca _, EmptyString => char_code ca
      | String ca a', String cb b' =>
          if Ascii.eqb ca cb then strncmp a' b' n' else (char_code ca - char_code cb)
      end
  end%Z.

(** *** [sscanf]

    A format is read as a list of directives: a white-space character, the
    conversion [%s], or an ordinary character. *)
Inductive directive : Type :=
  | Ordinary (c : ascii)
  | White
  | Conv_s.

Fixpoint parse_format (fmt : string) : list directive :=
  match fmt with
  | EmptyString => []
  | String c rest =>
      if isspace c then White :: parse_format rest
      else if Ascii.eqb c "%"%char then
        match rest with
        | String "s"%char rest' => Conv_s :: parse_format rest'
        | _ => Ordinary c :: parse_format rest
        end
      else Ordinary c :: parse_format rest
  end.

Fixpoint skip_space (input : string) : string :=
  match input with
  | EmptyString => EmptyString
  | String c rest => if isspace c then skip_space rest else input
  end.

(** The longest prefix without white space, and what follows it. *)
Fixpoint take_word (input : string) : string * string :=
  match input with
  | EmptyString => (EmptyString, EmptyString)
  | String c rest =>
      if isspace c then (EmptyString, input)
      else let (word, after) := take_word rest in (String c word, after)
  end.

Definition EOF : Z := (-1)%Z.

(** [scan ds input count dst]: run the directives [ds] on [input]; [count]
    conversions are done so far and [dst] is what the destination array holds.
    An input failure (end of input) before the first conversion returns
    [EOF]; a matching failure returns the count. *)
Fixpoint scan (ds : list directive) (input : string) (count : Z) (dst : string)
  : Z * string :=
  match ds with
  | [] => (count, dst)
  | Ordinary c :: ds' =>
      match input with
      | EmptyString => ((if count =? 0 then EOF else count)%Z, dst)
      | String c' rest =>
          if Ascii.eqb c c' then scan ds' rest count dst else (count, dst)
      end
  | White :: ds' => scan ds' (skip_space input) count dst
  | Conv_s :: ds' =>
      match skip_space input with
      | EmptyString => ((if count =? 0 then EOF else count)%Z, dst)
      | String _ _ as input' =>
          let (word, after) := take_word input' in
          scan ds' after (count + 1)%Z word
      end
  end.

(** [sscanf input fmt dst]: the value returned and the new content of the one
    destination array the shell passes. *)
Definition sscanf (input fmt dst : string) : Z * string :=
  scan (parse_format fmt) input 0%Z dst.

(** *** [fgets] on a stream of bytes *)

Fixpoint read_line (n : nat) (stream : string) : string * string :=
  match n, stream with
  | O, _ => (EmptyString, stream)
  | _, EmptyString => (EmptyString, EmptyString)
  | S n', String c rest =>
      if Ascii.eqb c LF then (String c EmptyString, rest)
      else let (line, rest') := read_line n' rest in (String c line, rest')
  end.

(** [fgets buffer size stream]: [None] is the null pointer of end-of-file. *)
Definition fgets (size : nat) (stream : string) : option (string * string) :=
  match stream with
  | EmptyString => None
  | _ => Some (read_line (size - 1) stream)
  end.

(** *** Conversions of [printf] *)

Fixpoint spaces (n : nat) : string :=
  match n with
  | O => EmptyString
  | S n' => String " "%char (spaces n')
  end.

(** [%-30s] with width [width]: left-justified, never truncated. *)
Definition pad_right (width : nat) (s : string) : string :=
  s ++ spaces (width - String.length s).

(** The cast [(int) x] on a 32-bit [int]. *)
Definition to_int (x : Z) : Z :=
  ((x + 2147483648) mod 4294967296 - 2147483648)%Z.

(** [%i] *)
Definition fmt_i (x : Z) : string :=
  NilZero.string_of_int (Z.to_int x).

End Libc.

Import Libc.

(** ** The file system and its system calls

    A directory is a list of named nodes, in the order in which [readdir]
    enumerates them.  The model has one user and no permission checks, no
    symbolic links and no mount points.  The names [.] and [..] are resolved
    by the path walk and are not stored as entries; [readdir] returns them
    all the same, at places of the enumeration that the file system chooses
    for each directory ([dot_positions]). *)

Module Fs.

Inductive errno : Type :=
  | ENOENT | ENOTDIR | EEXIST | ENOTEMPTY | EISDIR | ERANGE | EBUSY | EINVAL.

Definition strerror (e : errno) : string :=
  match e with
  | ENOENT => "No such file or directory"
  | ENOTDIR => "Not a directory"
  | EEXIST => "File exists"
  | ENOTEMPTY => "Directory not empty"
  | EISDIR => "Is a directory"
  | ERANGE => "Numerical result out of range"
  | EBUSY => "Device or resource busy"
  | EINVAL => "Invalid argument"
  end.

(** What the inode keeps besides the content. *)
Record attrs : Type := mkAttrs {
  a_perm : Z;
  a_mtime : Z;
  a_nlink : Z;
  a_ino : Z
}.

Inductive node : Type :=
  | File (a : attrs) (data : string)
  | Dir (a : attrs) (entries : list (string * node)).

Record stat_t : Type := mkStat {
  st_size : Z;
  st_mtime : Z;
  st_mode : Z;
  st_nlink : Z;
  st_ino : Z
}.

Definition S_IFMT : Z := 61440.    (* 0170000 *)
Definition S_IFDIR : Z := 16384.   (* 0040000 *)
Definition S_IFREG : Z := 32768.   (* 0100000 *)

Definition S_ISDIR (mode : Z) : bool := (Z.land mode S_IFMT =? S_IFDIR)%Z.

Definition DIR_SIZE : Z := 4096.

Definition stat_of (n : node) : stat_t :=
  match n with
  | File a data =>
      mkStat (Z.of_nat (String.length data)) (a_mtime a)
             (Z.lor S_IFREG (Z.land (a_perm a) 4095)) (a_nlink a) (a_ino a)
  | Dir a _ =>
      mkStat DIR_SIZE (a_mtime a)
             (Z.lor S_IFDIR (Z.land (a_perm a) 4095)) (a_nlink a) (a_ino a)
  end.

(** *** Paths *)

Definition path : Type := list string.

Fixpoint split_path (p : string) : list string :=
  match p with
  | EmptyString => [EmptyString]
  | String c rest =>
      if Ascii.eqb c "/"%char then EmptyString :: split_path rest
      else match split_path rest with
           | h :: t => String c h :: t
           | [] => [String c EmptyString]
           end
  end.

Definition components (p : string) : list string :=
  filter (fun c => negb (String.eqb c "")) (split_path p).

Fixpoint ends_with_slash (p : string) : bool :=
  match p with
  | EmptyString => false
  | String c EmptyString => Ascii.eqb c "/"%char
  | String _ rest => ends_with_slash rest
  end.

(** The steps of the walk along [p]: its components, and a last step [.]
    when [p] ends with a slash, so that what precedes the slash has to be a
    directory. *)
Definition steps (p : string) : list string :=
  (components p ++ (if ends_with_slash p then ["."] else []))%list.

Definition is_absolute (p : string) : bool :=
  match p with
  | String "/"%char _ => true
  | _ => false
  end.

Fixpoint path_string_aux (p : path) : string :=
  match p with
  | [] => EmptyString
  | c :: p' => "/" ++ c ++ path_string_aux p'
  end.

Definition path_string (p : path) : string :=
  match p with
  | [] => "/"
  | _ => path_string_aux p
  end.

(** *** The tree *)

Fixpoint assoc (name : string) (entries : list (string * node)) : option node :=
  match entries with
  | [] => None
  | (k, n) :: rest => if String.eqb k name then Some n else assoc name rest
  end.

Fixpoint lookup (n : node) (p : path) : option node :=
  match p with
  | [] => Some n
  | c :: p' =>
      match n with
      | Dir _ entries =>
          match assoc c entries with
          | Some child => lookup child p'
          | None => None
          end
      | File _ _ => None
      end
  end.

(** Rewrite the attributes and the entries of the directory at [p]. *)
Fixpoint modify_dir (p : path) (h : attrs -> attrs)
  (g : list (string * node) -> list (string * node)) (n : node) : node :=
  match n with
  | File _ _ => n
  | Dir a entries =>
      match p with
      | [] => Dir (h a) (g entries)
      | c :: p' =>
          Dir a (map (fun e => if String.eqb (fst e) c
                               then (fst e, modify_dir p' h g (snd e)) else e)
                     entries)
      end
  end.

(** What adding or removing an entry does to the directory itself: its
    modification time becomes [now] and its link count changes by [links]
    (one for each subdirectory, whose [..] is a link to it). *)
Definition touch (now links : Z) (a : attrs) : attrs :=
  mkAttrs (a_perm a) now (a_nlink a + links)%Z (a_ino a).

Definition insert_at {A : Type} (n : nat) (x : A) (l : list A) : list A :=
  (firstn n l ++ x :: skipn n l)%list.

Definition remove_entry (name : string) (entries : list (string * node))
  : list (string * node) :=
  filter (fun e => negb (String.eqb (fst e) name)) entries.

(** Walk [comps] from the directory at [cur]; every step needs the place it
    leaves to be a directory. *)
Fixpoint walk (root : node) (cur : path) (comps : list string) : errno + path :=
  match comps with
  | [] => inr cur
  | c :: rest =>
      match lookup root cur with
      | Some (Dir _ _) =>
          if String.eqb c "." then walk root cur rest
          else if String.eqb c ".." then walk root (removelast cur) rest
          else match lookup root (cur ++ [c])%list with
               | Some _ => walk root (cur ++ [c])%list rest
               | None => inl ENOENT
               end
      | Some (File _ _) => inl ENOTDIR
      | None => inl ENOENT
      end
  end.

(** *** The kernel's state and the calls *)

(** [umask] is the file mode creation mask of the process; [dot_positions]
    gives, for the directory at a path, the places at which [readdir]
    returns [.] and [..] among the entries. *)
Record fsys : Type := mkFsys {
  root : node;
  cwd : path;
  clock : Z;
  next_ino : Z;
  umask : Z;
  dot_positions : path -> nat * nat
}.

Definition with_root (r : node) (fs : fsys) : fsys :=
  mkFsys r (cwd fs) (clock fs) (next_ino fs) (umask fs) (dot_positions fs).

Definition with_cwd (c : path) (fs : fsys) : fsys :=
  mkFsys (root fs) c (clock fs) (next_ino fs) (umask fs) (dot_positions fs).

Definition resolve (fs : fsys) (p : string) : errno + path :=
  if String.eqb p "" then inl ENOENT
  else walk (root fs) (if is_absolute p then [] else cwd fs) (steps p).

(** The names [readdir] returns for the directory at [q]: its entries in
    order, with [.] and [..] where the file system puts them. *)
Definition readdir_names (fs : fsys) (q : path) (entries : list (string * node))
  : list string :=
  insert_at (snd (dot_positions fs q)) ".."
            (insert_at (fst (dot_positions fs q)) "." (map fst entries)).

Definition sys_chdir (p : string) (fs : fsys) : errno + fsys :=
  match resolve fs p with
  | inl e => inl e
  | inr q =>
      match lookup (root fs) q with
      | Some (Dir _ _) => inr (with_cwd q fs)
      | Some (File _ _) => inl ENOTDIR
      | None => inl ENOENT
      end
  end.

Definition sys_getcwd (size : nat) (fs : fsys) : errno + string :=
  match lookup (root fs) (cwd fs) with
  | Some (Dir _ _) =>
      let s := path_string (cwd fs) in
      if String.length s + 1 <=? size then inr s else inl ERANGE
  | _ => inl ENOENT
  end.

(** [opendir]: the names [readdir] will return, in order. *)
Definition sys_opendir (p : string) (fs : fsys) : errno + list string :=
  match resolve fs p with
  | inl e => inl e
  | inr q =>
      match lookup (root fs) q with
      | Some (Dir _ entries) => inr (readdir_names fs q entries)
      | Some (File _ _) => inl ENOTDIR
      | None => inl ENOENT
      end
  end.

Definition sys_stat (p : string) (fs : fsys) : errno + stat_t :=
  match resolve fs p with
  | inl e => inl e
  | inr q =>
      match lookup (root fs) q with
      | Some n => inr (stat_of n)
      | None => inl ENOENT
      end
  end.

Inductive open_file : Type :=
  | Regular (data : string)
  | Directory.

(** [open(p, O_RDONLY)] *)
Definition sys_open (p : string) (fs : fsys) : errno + open_file :=
  match resolve fs p with
  | inl e => inl e
  | inr q =>
      match lookup (root fs) q with
      | Some (File _ data) => inr (Regular data)
      | Some (Dir _ _) => inr Directory
      | None => inl ENOENT
      end
  end.

(** [read(fd, buf, count)] at [offset]: the value returned, the buffer
    afterwards (only its first bytes are overwritten) and the new offset. *)
Definition sys_read (f : open_file) (offset : nat) (buf : string) (count : nat)
  : Z * string * nat :=
  match f with
  | Regular data =>
      let chunk := String.substring offset count data in
      let n := String.length chunk in
      (Z.of_nat n, chunk ++ String.substring n (String.length buf - n) buf, offset + n)
  | Directory => ((-1)%Z, buf, offset)
  end.

Definition sys_mkdir (p : string) (mode : Z) (fs : fsys) : errno + fsys :=
  match components p with
  | [] => inl (if String.eqb p "" then ENOENT else EEXIST)
  | comps =>
      let name := last comps "" in
      match walk (root fs) (if is_absolute p then [] else cwd fs) (removelast comps) with
      | inl e => inl e
      | inr q =>
          match lookup (root fs) q with
          | Some (Dir _ entries) =>
              if String.eqb name "." || String.eqb name ".." then inl EEXIST
              else match assoc name entries with
                   | Some _ => inl EEXIST
                   | None =>
                       let d := Dir (mkAttrs (Z.land mode (Z.lnot (umask fs)))
                                             (clock fs) 2 (next_ino fs)) [] in
                       inr (mkFsys (modify_dir q (touch (clock fs) 1)
                                      (fun es => (es ++ [(name, d)])%list) (root fs))
                                   (cwd fs) (clock fs) (next_ino fs + 1)%Z
                                   (umask fs) (dot_positions fs))
                   end
          | Some (File _ _) => inl ENOTDIR
          | None => inl ENOENT
          end
      end
  end.

Definition sys_rmdir (p : string) (fs : fsys) : errno + fsys :=
  match resolve fs p with
  | inl e => inl e
  | inr q =>
      let given := last (components p) "" in
      if String.eqb given "." then inl EINVAL
      else if String.eqb given ".." then inl ENOTEMPTY
      else match q, lookup (root fs) q with
           | [], _ => inl EBUSY
           | _, Some (Dir _ []) =>
               inr (with_root (modify_dir (removelast q) (touch (clock fs) (-1))
                                 (remove_entry (last q "")) (root fs)) fs)
           | _, Some (Dir _ (_ :: _)) => inl ENOTEMPTY
           | _, Some (File _ _) => inl ENOTDIR
           | _, None => inl ENOENT
           end
  end.

Definition sys_unlink (p : string) (fs : fsys) : errno + fsys :=
  match resolve fs p with
  | inl e => inl e
  | inr q =>
      match lookup (root fs) q with
      | Some (File _ _) =>
          inr (with_root (modify_dir (removelast q) (touch (clock fs) 0)
                            (remove_entry (last q "")) (root fs)) fs)
      | Some (Dir _ _) => inl EISDIR
      | None => inl ENOENT
      end
  end.

End Fs.

Import Fs.

(** ** myshell.c *)

Module Shell.

(** What the process finds around it and never changes: the home directory
    of the invoking user ([getpwuid(getuid())->pw_dir]), the C library's
    [ctime], the indeterminate values that the automatic variables
    [buffer] of [do_cat] and [info] of [do_ls] hold before they are written,
    and the bytes that follow the global array [filename] in memory, up to
    the first NUL. *)
Record env : Type := mkEnv {
  pw_dir : string;
  ctime : Z -> string;
  indet_buffer : string;
  indet_info : stat_t;
  after_filename : string
}.

(** Ghost record of the built-in operations entered, for the dispatch
    properties; no function reads it. *)
Inductive call : Type :=
  | Call_cd (dirname : string)
  | Call_exit
  | Call_cat (filename : string)
  | Call_stat (filename : string)
  | Call_mkdir (dirname : string)
  | Call_rmdir (dirname : string)
  | Call_rm (filename : string)
  | Call_ls (dirname : string)
  | Call_pwd.

Inductive status : Type :=
  | Running
  | Exited (code : Z).

(** The state of the process and of what it can observe.  The two output
    streams are the bytes written so far, in program order.  The globals
    [buffer] and [filename] are rewritten at the start of every iteration
    that uses them and are passed as arguments; the global [result] is
    assigned and never read. *)
Record world : Type := mkWorld {
  w_env : env;
  w_fs : fsys;
  w_stdin : string;
  w_stdout : string;
  w_stderr : string;
  w_status : status;
  w_calls : list call
}.

Definition set_fs (fs : fsys) (w : world) : world :=
  mkWorld (w_env w) fs (w_stdin w) (w_stdout w) (w_stderr w) (w_status w) (w_calls w).

Definition set_stdin (s : string) (w : world) : world :=
  mkWorld (w_env w) (w_fs w) s (w_stdout w) (w_stderr w) (w_status w) (w_calls w).

Definition put_stdout (s : string) (w : world) : world :=
  mkWorld (w_env w) (w_fs w) (w_stdin w) (w_stdout w ++ s) (w_stderr w)
          (w_status w) (w_calls w).

Definition put_stderr (s : string) (w : world) : world :=
  mkWorld (w_env w) (w_fs w) (w_stdin w) (w_stdout w) (w_stderr w ++ s)
          (w_status w) (w_calls w).

Definition exit (code : Z) (w : world) : world :=
  mkWorld (w_env w) (w_fs w) (w_stdin w) (w_stdout w) (w_stderr w)
          (Exited code) (w_calls w).

Definition enter (c : call) (w : world) : world :=
  mkWorld (w_env w) (w_fs w) (w_stdin w) (w_stdout w) (w_stderr w)
          (w_status w) (w_calls w ++ [c]).

(** *** [strip_trailing_whitespace], on the C string in the buffer

    The source scans backwards from the last byte and overwrites white space
    with NUL; module [Buffer] below models that scan byte by byte and relates
    it to this function. *)
Fixpoint strip_trailing_whitespace (s : string) : string :=
  match s with
  | EmptyString => EmptyString
  | String c rest =>
      match strip_trailing_whitespace rest with
      | EmptyString => if isspace c then EmptyString else String c EmptyString
      | kept => String c kept
      end
  end.

Definition display_prompt (w : world) : world :=
  match sys_getcwd MAX_PATH_LENGTH (w_fs w) with
  | inr current_dir => put_stdout (current_dir ++ ">") w
  | inl _ => w
  end.

Definition do_cd (dirname : string) (w : world) : world :=
  let w := enter (Call_cd dirname) w in
  let dirname :=
    if strnlen dirname MAX_PATH_LENGTH =? 0
    then strncpy (pw_dir (w_env w)) MAX_PATH_LENGTH (after_filename (w_env w))
    else dirname in
  match sys_chdir dirname (w_fs w) with
  | inl e => put_stderr ("cd: " ++ strerror e ++ nl) w
  | inr fs' => set_fs fs' w
  end.

(** The loop of [do_ls] over the entries [readdir] returns; [info] is the
    local [struct stat], left as it was when [stat] fails. *)
Fixpoint ls_loop (entries : list string) (info : stat_t) (w : world) : world :=
  match entries with
  | [] => w
  | d_name :: rest =>
      let '(w, info) :=
        match sys_stat d_name (w_fs w) with
        | inl e => (put_stderr ("stat: " ++ d_name ++ ": " ++ strerror e ++ nl) w, info)
        | inr i => (w, i)
        end in
      let w :=
        if S_ISDIR (st_mode info)
        then put_stdout (pad_right 30 d_name ++ tab ++ "<dir>" ++ nl) w
        else put_stdout (pad_right 30 d_name ++ nl) w in
      ls_loop rest info w
  end.

Definition do_ls (dirname : string) (w : world) : world :=
  let w := enter (Call_ls dirname) w in
  match sys_opendir dirname (w_fs w) with
  | inl e =>
      put_stderr ("Could not open directory " ++ dirname ++ ": " ++ strerror e ++ nl) w
  | inr entries =>
      let w :=
        match sys_chdir dirname (w_fs w) with
        | inr fs' => set_fs fs' w
        | inl _ => w
        end in
      ls_loop entries (indet_info (w_env w)) w
  end.

Definition CAT_BUFFER : nat := 2048.

(** The [do ... while (readCount > 0)] loop of [do_cat]. *)
Fixpoint cat_loop (fuel : nat) (inFile : open_file) (offset : nat) (buffer : string)
  (w : world) : option world :=
  match fuel with
  | O => None
  | S fuel' =>
      let '(readCount, buffer', offset') := sys_read inFile offset buffer CAT_BUFFER in
      let w' := put_stdout (String.substring 0 CAT_BUFFER buffer') w in
      if (readCount >? 0)%Z then cat_loop fuel' inFile offset' buffer' w'
      else Some w'
  end.

(** Iterations that suffice: every pass but the last reads at least a byte. *)
Definition cat_fuel (inFile : open_file) : nat :=
  match inFile with
  | Regular data => String.length data + 1
  | Directory => 1
  end.

Definition do_cat (filename : string) (w : world) : world :=
  let w := enter (Call_cat filename) w in
  match sys_open filename (w_fs w) with
  | inl e => put_stdout ("Unable to open " ++ filename ++ ": " ++ strerror e ++ nl) w
  | inr inFile =>
      match cat_loop (cat_fuel inFile) inFile 0 (indet_buffer (w_env w)) w with
      | Some w' => w'
      | None => w
      end
  end.

Definition do_mkdir (dirname : string) (w : world) : world :=
  let w := enter (Call_mkdir dirname) w in
  match sys_mkdir dirname 493 (w_fs w) with    (* 0755 *)
  | inl e =>
      put_stderr ("Error making directory " ++ dirname ++ ": " ++ strerror e ++ nl) w
  | inr fs' => set_fs fs' w
  end.

Definition do_rmdir (dirname : string) (w : world) : world :=
  let w := enter (Call_rmdir dirname) w in
  match sys_rmdir dirname (w_fs w) with
  | inl e =>
      put_stderr ("Error removing directory " ++ dirname ++ ": " ++ strerror e ++ nl) w
  | inr fs' => set_fs fs' w
  end.

Definition do_pwd (w : world) : world :=
  let w := enter Call_pwd w in
  match sys_getcwd MAX_PATH_LENGTH (w_fs w) with
  | inr current_dir => put_stdout (current_dir ++ ">") w
  | inl _ => w
  end.

Definition do_rm (filename : string) (w : world) : world :=
  let w := enter (Call_rm filename) w in
  match sys_unlink filename (w_fs w) with
  | inl e =>
      put_stderr ("Error unlinking file " ++ filename ++ ": " ++ strerror e ++ nl) w
  | inr fs' => set_fs fs' w
  end.

Definition do_stat (filename : string) (w : world) : world :=
  let w := enter (Call_stat filename) w in
  match sys_stat filename (w_fs w) with
  | inl e =>
      put_stderr ("Error getting stats for " ++ filename ++ ": " ++ strerror e ++ nl) w
  | inr info =>
      let w := put_stdout ("File Name: " ++ filename ++ nl) w in
      let w := put_stdout ("Total Size: " ++ fmt_i (to_int (st_size info)) ++ nl) w in
      let w := put_stdout ("Last Modified: " ++ ctime (w_env w) (st_mtime info)) w in
      let w := put_stdout ("Protection: " ++ fmt_i (to_int (st_mode info)) ++ nl) w in
      let w := put_stdout ("Number of hardlinks: " ++ fmt_i (to_int (st_nlink info)) ++ nl) w in
      put_stdout ("Inode: " ++ fmt_i (to_int (st_ino info)) ++ nl) w
  end.

(** [execute_command]; [filename] is the global array as [main] left it. *)
Definition execute_command (buffer filename : string) (w : world) : world :=
  let (n, filename) := sscanf buffer "cat %s" filename in
  if (n =? 1)%Z then do_cat filename w else
  let (n, filename) := sscanf buffer "stat %s" filename in
  if (n =? 1)%Z then do_stat filename w else
  let (n, filename) := sscanf buffer "mkdir %s" filename in
  if (n =? 1)%Z then do_mkdir filename w else
  let (n, filename) := sscanf buffer "rmdir %s" filename in
  if (n =? 1)%Z then do_rmdir filename w else
  let (n, filename) := sscanf buffer "rm %s" filename in
  if (n =? 1)%Z then do_rm filename w else
  let (n, filename) := sscanf buffer "ls %s" filename in
  if ((n =? 1)%Z || (strncmp buffer "ls" MAX_BUFFER_LENGTH =? 0)%Z)%bool then
    let filename := if strnlen filename MAX_BUFFER_LENGTH =? 0 then "." else filename in
    do_ls filename w
  else if (strncmp buffer "pwd" MAX_BUFFER_LENGTH =? 0)%Z then do_pwd w
  else
    if negb (strnlen buffer MAX_BUFFER_LENGTH =? 0)
    then put_stderr ("myshell: " ++ buffer ++ ": No such file or directory" ++ nl) w
    else w.

(** Lines 70 to 81 of [main]: what is done with a line [fgets] has read. *)
Definition dispatch_line (line : string) (w : world) : world :=
  let buffer := strip_trailing_whitespace (c_str line) in
  let filename := EmptyString in                       (* memset *)
  let (n, filename) := sscanf buffer "cd %s" filename in
  if ((n =? 1)%Z || (strncmp buffer "cd" MAX_BUFFER_LENGTH =? 0)%Z)%bool then
    do_cd filename w
  else if (strncmp buffer "exit" MAX_BUFFER_LENGTH =? 0)%Z then
    exit 0 (enter Call_exit w)
  else execute_command buffer filename w.

(** One pass through the body of [while (1)]. *)
Definition main_iteration (w : world) : world :=
  let w := display_prompt w in
  match fgets MAX_BUFFER_LENGTH (w_stdin w) with
  | Some (line, rest) => dispatch_line line (set_stdin rest w)
  | None => w
  end.

(** [main]: the loop, cut after [fuel] passes; it is left only through
    [exit]. *)
Fixpoint main (fuel : nat) (w : world) : world :=
  match fuel with
  | O => w
  | S fuel' =>
      match w_status w with
      | Running => main fuel' (main_iteration w)
      | Exited _ => w
      end
  end.

End Shell.

Import Shell.


(** ** [strip_trailing_whitespace], byte by byte

    The argument of the function is a pointer; here it is the memory seen
    from that pointer, a byte at every offset: offsets [0] to
    [MAX_BUFFER_LENGTH - 1] are the array [buffer], negative offsets are
    whatever the linker placed below it.  Every byte the backward scan loads
    or stores is recorded. *)

Module Buffer.

Definition memory : Type := Z -> ascii.

Definition store (m : memory) (i : Z) (c : ascii) : memory :=
  fun j => if (j =? i)%Z then c else m j.

Inductive access : Type :=
  | Load (i : Z)
  | Store (i : Z).

Definition offset_of (a : access) : Z :=
  match a with
  | Load i => i
  | Store i => i
  end.

Definition in_bounds (a : access) : bool :=
  ((0 <=? offset_of a) && (offset_of a <? Z.of_nat MAX_BUFFER_LENGTH))%Z.

(** [strnlen] from offset [i]. *)
Fixpoint strnlen_from (m : memory) (i : Z) (maxlen : nat) : Z :=
  match maxlen with
  | O => 0
  | S k => if Ascii.eqb (m i) NUL then 0 else 1 + strnlen_from m (i + 1) k
  end%Z.

Record outcome : Type := mkOutcome {
  mem_after : memory;
  accesses : list access;      (* in the order made *)
  returned : bool              (* false: still scanning when the fuel ran out *)
}.

(** [while (isspace(string[i])) string[i--] = 0;] *)
Fixpoint scan_back (fuel : nat) (string : memory) (i : Z) (log : list access) : outcome :=
  match fuel with
  | O => mkOutcome string log false
  | S fuel' =>
      if isspace (string i)
      then scan_back fuel' (store string i NUL) (i - 1) (log ++ [Load i; Store i])
      else mkOutcome string (log ++ [Load i]) true
  end.

Definition strip_trailing_whitespace (fuel : nat) (string : memory) : outcome :=
  let i := (strnlen_from string 0 MAX_BUFFER_LENGTH - 1)%Z in
  scan_back fuel string i [].

(** The memory in which the array holds the C string [s]: its bytes, then a
    NUL; every other byte, the rest of the array and what lies below it, is
    taken from [rest]. *)
Definition holding (s : string) (rest : memory) : memory :=
  fun i =>
    if (i <? 0)%Z then rest i
    else match String.get (Z.to_nat i) s with
         | Some c => c
         | None => if (i =? Z.of_nat (String.length s))%Z then NUL else rest i
         end.

(** The C string the array holds. *)
Fixpoint contents_from (m : memory) (i : Z) (n : nat) : string :=
  match n with
  | O => EmptyString
  | S k =>
      if Ascii.eqb (m i) NUL then EmptyString
      else String (m i) (contents_from m (i + 1) k)
  end.

Definition contents (m : memory) : string := contents_from m 0 MAX_BUFFER_LENGTH.

End Buffer.

(** ** The vocabulary of the specification *)

Module Spec.

(** A string without the byte NUL: what an array can hold as a C string. *)
Fixpoint no_nul (s : string) : bool :=
  match s with
  | EmptyString => true
  | String c rest => negb (Ascii.eqb c NUL) && no_nul rest
  end.

(** A string of white space only. *)
Fixpoint all_space (s : string) : bool :=
  match s with
  | EmptyString => true
  | String c rest => isspace c && all_space rest
  end.

(** The nine recognized keywords. *)
Definition keywords : list string :=
  ["cd"; "exit"; "cat"; "stat"; "mkdir"; "rmdir"; "rm"; "ls"; "pwd"].

Definition is_keyword (s : string) : bool :=
  existsb (String.eqb s) keywords.

(** The command text of a line [fgets] has read: the C string it stored in
    the buffer, without its trailing white space. *)
Definition command_text (line : string) : string :=
  strip_trailing_whitespace (c_str line).

(** The first white-space-delimited token of a line. *)
Definition first_token (line : string) : string :=
  fst (take_word (skip_space line)).

(** The keyword of the built-in operation a call belongs to. *)
Definition keyword_of (c : call) : string :=
  match c with
  | Call_cd _ => "cd"
  | Call_exit => "exit"
  | Call_cat _ => "cat"
  | Call_stat _ => "stat"
  | Call_mkdir _ => "mkdir"
  | Call_rmdir _ => "rmdir"
  | Call_rm _ => "rm"
  | Call_ls _ => "ls"
  | Call_pwd => "pwd"
  end.

(** The diagnostic for an unrecognized command. *)
Definition unrecognized (line : string) : string :=
  "myshell: " ++ line ++ ": No such file or directory" ++ nl.

(** One line of a listing. *)
Definition ls_line (name : string) (is_dir : bool) : string :=
  if is_dir then pad_right 30 name ++ tab ++ "<dir>" ++ nl
  else pad_right 30 name ++ nl.

(** A name a directory entry can have. *)
Definition valid_name (name : string) : bool :=
  negb (String.eqb name "") && negb (String.eqb name ".")
  && negb (String.eqb name "..")
  && forallb (fun c => negb (Ascii.eqb c "/"%char)) (list_ascii_of_string name).

End Spec.

Import Spec.

(** ** Further vocabulary: words, kinds of nodes, well-formed trees *)

Module Terms.

(** A word: what [%s] reads in one piece, not empty and without white
    space. *)
Fixpoint no_space (s : string) : bool :=
  match s with
  | EmptyString => true
  | String c rest => negb (isspace c) && no_space rest
  end.

Definition word (s : string) : bool :=
  negb (String.eqb s "") && no_space s.

(** What may follow a word: nothing, or something that starts with white
    space. *)
Definition ends_word (rest : string) : bool :=
  match rest with
  | EmptyString => true
  | String c _ => isspace c
  end.

Definition is_dir (n : node) : bool :=
  match n with
  | Dir _ _ => true
  | File _ _ => false
  end.

(** A node with nothing below it: a file or an empty directory. *)
Definition is_leaf (n : node) : bool :=
  match n with
  | File _ _ => true
  | Dir _ [] => true
  | Dir _ (_ :: _) => false
  end.

Fixpoint distinct (names : list string) : bool :=
  match names with
  | [] => true
  | n :: rest => negb (existsb (String.eqb n) rest) && distinct rest
  end.

(** A tree in which the entries of every directory have distinct names. *)
Fixpoint well_formed (n : node) : bool :=
  match n with
  | File _ _ => true
  | Dir _ entries =>
      distinct (map fst entries)
      && forallb (fun e => well_formed (snd e)) entries
  end.

(** The lines [ls] prints for [names], in order; [tagged] tells which of
    them are directories. *)
Fixpoint lines_of (tagged : string -> bool) (names : list string) : string :=
  match names with
  | [] => EmptyString
  | n :: rest => ls_line n (tagged n) ++ lines_of tagged rest
  end.

(** Whether a name [readdir] returns for a directory with [entries] names
    a directory: [.] and [..] do, and so does an entry that is one. *)
Definition names_directory (entries : list (string * node)) (name : string) : bool :=
  String.eqb name "." || String.eqb name ".."
  || match assoc name entries with
     | Some n => is_dir n
     | None => false
     end.

(** The tree, with the modification time of every directory forgotten. *)
Fixpoint without_dir_times (n : node) : node :=
  match n with
  | File a data => File a data
  | Dir a entries =>
      Dir (mkAttrs (a_perm a) 0 (a_nlink a) (a_ino a))
          (map (fun e => (fst e, without_dir_times (snd e))) entries)
  end.

(** The seven keywords matched by a [sscanf] pattern. *)
Definition pattern_keywords : list string :=
  ["cd"; "cat"; "stat"; "mkdir"; "rmdir"; "rm"; "ls"].

(** When the command text selects the operation of a call: [exit] and [pwd]
    are compared with the whole text; the other keywords have to begin it. *)
Definition selects (c : call) (text : string) : bool :=
  match c with
  | Call_exit => String.eqb text "exit"
  | Call_pwd => String.eqb text "pwd"
  | _ => String.prefix (keyword_of c) text
  end.

End Terms.

Import Terms.

(** ** A small world to run the shell in *)

Module Sample.

Definition file_attrs : attrs := mkAttrs 420 0 1 7.      (* 0644 *)
Definition dir_attrs : attrs := mkAttrs 493 0 2 3.       (* 0755 *)

(** / -+- home --- user -+- a   (a file holding "hello")
       |                 +- b   (an empty directory)
       +- tmp *)
Definition tree : node :=
  Dir dir_attrs
    [("home", Dir dir_attrs
        [("user", Dir dir_attrs
            [("a", File file_attrs "hello"); ("b", Dir dir_attrs [])])]);
     ("tmp", Dir dir_attrs [])].

Fixpoint repeat_char (n : nat) (c : ascii) : string :=
  match n with
  | O => EmptyString
  | S k => String c (repeat_char k c)
  end.

Definition environment : env :=
  mkEnv "/home/user" (fun _ => "Thu Jan  1 00:00:00 1970" ++ nl)
        (repeat_char CAT_BUFFER "#"%char) (mkStat 0 0 0 0 0) "".

(** [readdir] returns [.] first and [..] last, the entries between them. *)
Definition dots_around (q : path) : nat * nat := (0, 1000).

(** [readdir] returns the entries first, then [.] and [..]. *)
Definition dots_after (q : path) : nat * nat := (1000, 1000).

(** The process started in /home/user with [input] waiting on standard
    input. *)
Definition start (input : string) : world :=
  mkWorld environment (mkFsys tree ["home"; "user"] 100 50 18 dots_around)
          input "" "" Running [].

(** The same on a file system with another order of enumeration. *)
Definition start_dots_after (input : string) : world :=
  mkWorld environment (mkFsys tree ["home"; "user"] 100 50 18 dots_after)
          input "" "" Running [].

(** The same for a process whose file mode creation mask is 077. *)
Definition start_private (input : string) : world :=
  mkWorld environment (mkFsys tree ["home"; "user"] 100 50 63 dots_around)
          input "" "" Running [].

(** A directory whose absolute path is longer than [MAX_PATH_LENGTH], and
    the process started inside it. *)
Definition long_name : string := repeat_char 300 "d"%char.

Definition deep (input : string) : world :=
  mkWorld environment
          (mkFsys (Dir dir_attrs [(long_name, Dir dir_attrs [])]) [long_name] 100 50 18
                  dots_around)
          input "" "" Running [].

End Sample.
(** * Properties *)

(** ** Facts about strings *)

Section StringFacts.

Lemma length_app (s t : string) :
  String.length (s ++ t) = String.length s + String.length t.
Proof. induction s as [|c s IH]; simpl; [reflexivity | now rewrite IH]. Qed.

Lemma app_empty_r (s : string) : s ++ "" = s.
Proof. induction s as [|c s IH]; simpl; [reflexivity | now rewrite IH]. Qed.

Lemma app_assoc_s (s t u : string) : (s ++ t) ++ u = s ++ t ++ u.
Proof. induction s as [|c s IH]; simpl; [reflexivity | now rewrite IH]. Qed.

Lemma app_inv_head_s (s t u : string) : s ++ t = s ++ u -> t = u.
Proof.
  induction s as [|c s IH]; simpl; intros H; [assumption|].
  injection H as H. now apply IH.
Qed.

Lemma length_substring (s : string) (a n : nat) :
  String.length (String.substring a n s) = Nat.min n (String.length s - a).
Proof.
  revert a n. induction s as [|c s IH]; intros a n.
  - destruct a, n; reflexivity.
  - destruct a as [|a]; simpl.
    + destruct n as [|n]; simpl; [reflexivity|].
      rewrite IH. now rewrite Nat.sub_0_r.
    + apply IH.
Qed.

Lemma length_spaces (n : nat) : String.length (spaces n) = n.
Proof. induction n; simpl; congruence. Qed.

End StringFacts.

(** ** [sscanf] on the shell's formats *)

Example sscanf_cat_file : sscanf "cat notes.txt" "cat %s" "" = (1%Z, "notes.txt").
Proof. reflexivity. Qed.

Example sscanf_cat_glued : sscanf "catfoo" "cat %s" "" = (1%Z, "foo").
Proof. reflexivity. Qed.

Example sscanf_cat_alone : sscanf "cat" "cat %s" "" = (EOF, "").
Proof. reflexivity. Qed.

Example sscanf_mismatch : sscanf "stat x" "cat %s" "" = (0%Z, "").
Proof. reflexivity. Qed.

Example fmt_i_neg : fmt_i (to_int 4294967295) = "-1".
Proof. reflexivity. Qed.

(** ** [cat] *)

Section Cat.

(** A pass of [read] leaves the array as long as it was. *)
Lemma sys_read_buffer_length (f : open_file) (offset : nat) (buffer : string) :
  String.length buffer = CAT_BUFFER ->
  String.length (snd (fst (sys_read f offset buffer CAT_BUFFER))) = CAT_BUFFER.
Proof.
  intros Hlen. destruct f as [data|]; simpl; [|assumption].
  rewrite length_app, !length_substring, Hlen. lia.
Qed.

(** Each pass writes the whole array; the passes stop after one that reads
    nothing, so at least [CAT_BUFFER] bytes more than were left in the file
    reach standard output. *)
Lemma cat_loop_output (fuel : nat) :
  forall (data : string) (offset : nat) (buffer : string) (w0 w' : world),
    String.length buffer = CAT_BUFFER ->
    cat_loop fuel (Regular data) offset buffer w0 = Some w' ->
    String.length (w_stdout w0) + (String.length data - offset) + CAT_BUFFER
      <= String.length (w_stdout w').
Proof.
  induction fuel as [|fuel IH]; intros data offset buffer w0 w' Hlen Hrun;
    [discriminate|].
  pose proof (sys_read_buffer_length (Regular data) offset buffer Hlen) as Hbuf.
  cbn [cat_loop] in Hrun.
  destruct (sys_read (Regular data) offset buffer CAT_BUFFER)
    as [[readCount buffer'] offset'] eqn:Hread.
  cbn [fst snd] in Hbuf.
  assert (Hcount : readCount = Z.of_nat (Nat.min CAT_BUFFER (String.length data - offset))
                   /\ offset' = offset + Nat.min CAT_BUFFER (String.length data - offset)).
  { cbn [sys_read] in Hread. injection Hread as <- _ <-.
    now rewrite length_substring. }
  destruct Hcount as [-> ->].
  assert (Hwrite : String.length (String.substring 0 CAT_BUFFER buffer') = CAT_BUFFER).
  { rewrite length_substring, Hbuf. lia. }
  destruct (Z.gtb_spec (Z.of_nat (Nat.min CAT_BUFFER (String.length data - offset))) 0)
    as [Hpos|Hzero].
  - apply IH in Hrun; [|assumption].
    cbn [put_stdout w_stdout] in Hrun. rewrite length_app, Hwrite in Hrun. lia.
  - injection Hrun as <-. cbn [put_stdout w_stdout].
    rewrite length_app, Hwrite. unfold CAT_BUFFER in *. lia.
Qed.

(** The loop ends: [cat_fuel] passes are enough for any file. *)
Lemma cat_loop_terminates (fuel : nat) :
  forall (data : string) (offset : nat) (buffer : string) (w0 : world),
    String.length data - offset < fuel ->
    exists w', cat_loop fuel (Regular data) offset buffer w0 = Some w'.
Proof.
  induction fuel as [|fuel IH]; intros data offset buffer w0 Hfuel; [lia|].
  cbn [cat_loop sys_read]. rewrite length_substring.
  destruct (Z.gtb_spec (Z.of_nat (Nat.min CAT_BUFFER (String.length data - offset))) 0)
    as [Hpos|Hzero]; [|eauto].
  apply IH. unfold CAT_BUFFER in *. lia.
Qed.

(** So the fuel [do_cat] gives its loop is never exhausted. *)
Lemma cat_fuel_suffices (f : open_file) (buffer : string) (w0 : world) :
  exists w', cat_loop (cat_fuel f) f 0 buffer w0 = Some w'.
Proof.
  destruct f as [data|].
  - apply cat_loop_terminates. cbn [cat_fuel]. lia.
  - cbn. eauto.
Qed.

End Cat.

(** C1 (as the code behaves): for every regular file, [do_cat] ends, and it
    appends to standard output at least one whole array of [CAT_BUFFER] bytes
    more than the file holds, because every pass writes [sizeof (buffer)]
    bytes whatever [read] returned, the last pass (which reads nothing)
    included.  Standard output is therefore never the file's bytes alone. *)
Theorem cat_writes_more_than_the_file (w : world) (filename data : string) :
  sys_open filename (w_fs w) = inr (Regular data) ->
  String.length (indet_buffer (w_env w)) = CAT_BUFFER ->
  String.length (w_stdout w) + String.length data + CAT_BUFFER
    <= String.length (w_stdout (do_cat filename w))
  /\ w_stdout (do_cat filename w) <> w_stdout w ++ data.
Proof.
  intros Hopen Hlen.
  assert (Hbound : String.length (w_stdout w) + String.length data + CAT_BUFFER
                   <= String.length (w_stdout (do_cat filename w))).
  { unfold do_cat. cbn [enter w_fs w_env]. rewrite Hopen. cbn [cat_fuel].
    destruct (cat_loop_terminates (String.length data + 1) data 0
                (indet_buffer (w_env w)) (enter (Call_cat filename) w)) as [w' Hrun];
      [lia|].
    rewrite Hrun. apply cat_loop_output in Hrun; [|assumption].
    cbn [enter w_stdout] in Hrun. lia. }
  split; [exact Hbound|].
  intros Heq. rewrite Heq, length_app in Hbound. unfold CAT_BUFFER in Hbound. lia.
Qed.

Lemma cat_writes_more_than_the_file_witness :
  String.length "" + String.length "hello" + CAT_BUFFER
    <= String.length (w_stdout (do_cat "a" (Sample.start "")))
  /\ w_stdout (do_cat "a" (Sample.start "")) <> w_stdout (Sample.start "") ++ "hello".
Proof.
  apply (cat_writes_more_than_the_file (Sample.start "") "a" "hello"); reflexivity.
Defined.

(** On the five-byte file of the sample world, [cat a] writes 4096 bytes:
    the file followed by 2043 stale bytes of the array, twice. *)
Example cat_hello_output :
  w_stdout (do_cat "a" (Sample.start ""))
  = ("hello" ++ Sample.repeat_char 2043 "#"%char)
    ++ ("hello" ++ Sample.repeat_char 2043 "#"%char).
Proof. vm_compute. reflexivity. Qed.

(** C7 (as the code behaves): when [open] fails, [do_cat] reports it with
    [printf]: the message is appended to standard output and the error stream
    is left as it was. *)
Theorem cat_open_failure_on_stdout (w : world) (filename : string) (e : errno) :
  sys_open filename (w_fs w) = inl e ->
  w_stdout (do_cat filename w)
    = w_stdout w ++ "Unable to open " ++ filename ++ ": " ++ strerror e ++ nl
  /\ w_stderr (do_cat filename w) = w_stderr w.
Proof.
  intros Hopen. unfold do_cat. cbn [enter w_fs]. rewrite Hopen.
  split; reflexivity.
Qed.

Lemma cat_open_failure_on_stdout_witness :
  w_stdout (do_cat "nosuch" (Sample.start ""))
    = "Unable to open nosuch: No such file or directory" ++ nl
  /\ w_stderr (do_cat "nosuch" (Sample.start "")) = "".
Proof.
  exact (cat_open_failure_on_stdout (Sample.start "") "nosuch" ENOENT eq_refl).
Defined.

(** ** The working directory: [cd], [pwd], [ls] *)

Section WorkingDirectory.

Lemma strnlen_zero (s : string) (n : nat) :
  s <> "" -> 0 < n -> (strnlen s n =? 0) = false.
Proof.
  intros Hs Hn. apply Nat.eqb_neq. unfold strnlen.
  destruct s; [congruence | cbn [String.length]; lia].
Qed.

Lemma ls_loop_fs (entries : list string) :
  forall (info : stat_t) (w : world), w_fs (ls_loop entries info w) = w_fs w.
Proof.
  induction entries as [|d_name rest IH]; intros info w; [reflexivity|].
  cbn [ls_loop].
  destruct (sys_stat d_name (w_fs w)) as [e|i]; [destruct (S_ISDIR (st_mode info))
                                                | destruct (S_ISDIR (st_mode i))];
    rewrite IH; reflexivity.
Qed.

Lemma opendir_chdir (fs : fsys) (dirname : string) (entries : list string) :
  sys_opendir dirname fs = inr entries ->
  exists q, resolve fs dirname = inr q /\ sys_chdir dirname fs = inr (with_cwd q fs).
Proof.
  unfold sys_opendir, sys_chdir. intros H.
  destruct (resolve fs dirname) as [e|q]; [discriminate|].
  exists q. split; [reflexivity|].
  destruct (lookup (root fs) q) as [[a data|a es]|]; try discriminate. reflexivity.
Qed.

End WorkingDirectory.

(** C8: whenever [opendir] succeeds on the path given to [ls], the process
    is in that directory after the listing: the kernel state [do_ls] leaves
    is the one [chdir] on the same path produces, with the path [dirname]
    resolves to as working directory. *)
Theorem ls_changes_working_directory (w : world) (dirname : string)
  (entries : list string) :
  sys_opendir dirname (w_fs w) = inr entries ->
  exists q, resolve (w_fs w) dirname = inr q
            /\ sys_chdir dirname (w_fs w) = inr (w_fs (do_ls dirname w))
            /\ cwd (w_fs (do_ls dirname w)) = q.
Proof.
  intros Hopen. destruct (opendir_chdir _ _ _ Hopen) as [q [Hres Hcd]].
  exists q. unfold do_ls. cbn [enter w_fs w_env]. rewrite Hopen, Hcd, ls_loop_fs.
  cbn [set_fs w_fs]. split; [exact Hres | split; reflexivity].
Qed.

Lemma ls_changes_working_directory_witness :
  exists q, resolve (w_fs (Sample.start "")) "/tmp" = inr q
            /\ sys_chdir "/tmp" (w_fs (Sample.start ""))
               = inr (w_fs (do_ls "/tmp" (Sample.start "")))
            /\ cwd (w_fs (do_ls "/tmp" (Sample.start ""))) = q.
Proof.
  exact (ls_changes_working_directory (Sample.start "") "/tmp" ["."; ".."] eq_refl).
Defined.

(** In the sample world the shell starts in /home/user; after [ls /tmp] it
    is in /tmp. *)
Example ls_tmp_moves :
  sys_getcwd MAX_PATH_LENGTH (w_fs (main 2 (Sample.start ("ls /tmp" ++ nl))))
  = inr "/tmp".
Proof. reflexivity. Qed.

(** C4 (as the code behaves): after a successful [cd D], [pwd] appends to
    standard output the working directory followed by the character [>],
    the prompt's mark, and no newline. *)
Theorem pwd_after_cd_writes_prompt_mark (w : world) (D current_dir : string)
  (fs' : fsys) :
  D <> "" ->
  sys_chdir D (w_fs w) = inr fs' ->
  sys_getcwd MAX_PATH_LENGTH fs' = inr current_dir ->
  w_stdout (do_pwd (do_cd D w)) = w_stdout w ++ current_dir ++ ">"
  /\ w_stdout (do_pwd (do_cd D w)) <> w_stdout w ++ current_dir.
Proof.
  intros HD Hcd Hcwd.
  assert (Hout : w_stdout (do_pwd (do_cd D w)) = w_stdout w ++ current_dir ++ ">").
  { unfold do_cd. rewrite (strnlen_zero D MAX_PATH_LENGTH HD) by (unfold MAX_PATH_LENGTH; lia).
    cbn [enter w_fs]. rewrite Hcd. unfold do_pwd. cbn [enter set_fs w_fs].
    rewrite Hcwd. reflexivity. }
  split; [exact Hout|].
  rewrite Hout. intros Heq. apply app_inv_head_s in Heq.
  rewrite <- (app_empty_r current_dir) in Heq at 2.
  apply app_inv_head_s in Heq. discriminate.
Qed.

Lemma pwd_after_cd_writes_prompt_mark_witness :
  w_stdout (do_pwd (do_cd "/tmp" (Sample.start ""))) = "" ++ "/tmp" ++ ">"
  /\ w_stdout (do_pwd (do_cd "/tmp" (Sample.start ""))) <> "" ++ "/tmp".
Proof.
  apply (pwd_after_cd_writes_prompt_mark (Sample.start "") "/tmp" "/tmp"
           (with_cwd ["tmp"] (w_fs (Sample.start "")))).
  - discriminate.
  - reflexivity.
  - reflexivity.
Defined.

(** The session [cd /tmp], [pwd], end of input: three prompts, and between
    the second and the third the output of [pwd], which is [/tmp>]. *)
Example cd_pwd_session :
  w_stdout (main 3 (Sample.start ("cd /tmp" ++ nl ++ "pwd" ++ nl)))
  = "/home/user>" ++ "/tmp>" ++ "/tmp>" ++ "/tmp>".
Proof. reflexivity. Qed.

(** ** [ls] *)

Section Listing.

Lemma split_path_no_slash (s : string) :
  forallb (fun c => negb (Ascii.eqb c "/"%char)) (list_ascii_of_string s) = true ->
  split_path s = [s].
Proof.
  induction s as [|c s IH]; [reflexivity|].
  cbn [list_ascii_of_string forallb split_path]. intros H.
  apply andb_true_iff in H as [Hc Hs]. apply negb_true_iff in Hc.
  rewrite Hc, (IH Hs). reflexivity.
Qed.

Lemma no_slash_at_end (s : string) :
  forallb (fun c => negb (Ascii.eqb c "/"%char)) (list_ascii_of_string s) = true ->
  ends_with_slash s = false.
Proof.
  induction s as [|c s IH]; [reflexivity|].
  cbn [list_ascii_of_string forallb ends_with_slash]. intros H.
  apply andb_true_iff in H as [Hc Hs]. apply negb_true_iff in Hc.
  destruct s; [exact Hc | now apply IH].
Qed.

Lemma valid_name_parts (name : string) :
  valid_name name = true ->
  steps name = [name] /\ is_absolute name = false
  /\ String.eqb name "" = false /\ String.eqb name "." = false
  /\ String.eqb name ".." = false.
Proof.
  unfold valid_name. intros H.
  apply andb_true_iff in H as [H Hslash]. apply andb_true_iff in H as [H Hdd].
  apply andb_true_iff in H as [He Hd].
  apply negb_true_iff in He, Hd, Hdd.
  unfold steps, components.
  rewrite (split_path_no_slash _ Hslash), (no_slash_at_end _ Hslash).
  cbn [filter app]. rewrite He. cbn [negb].
  repeat split; try assumption.
  destruct name as [|c rest]; [reflexivity|].
  cbn [list_ascii_of_string forallb] in Hslash.
  apply andb_true_iff in Hslash as [Hc _]. apply negb_true_iff in Hc.
  unfold is_absolute.
  destruct (Ascii.eqb_spec c "/"%char) as [->|Hne]; [discriminate|].
  destruct c as [[] [] [] [] [] [] [] []]; try reflexivity. now elim Hne.
Qed.

Lemma lookup_snoc (q : path) (name : string) :
  forall r : node,
    lookup r (q ++ [name])%list
    = match lookup r q with
      | Some (Dir _ entries) => assoc name entries
      | _ => None
      end.
Proof.
  induction q as [|c q IH]; intros r.
  - cbn [app lookup]. destruct r as [a data|a entries]; [reflexivity|].
    destruct (assoc name entries); reflexivity.
  - cbn [app lookup]. destruct r as [a data|a entries]; [reflexivity|].
    destruct (assoc c entries) as [child|]; [apply IH | reflexivity].
Qed.

(** [stat] on the name of an entry, from inside its directory. *)
Lemma stat_entry (fs : fsys) (a : attrs) (entries : list (string * node))
  (name : string) (n : node) :
  lookup (root fs) (cwd fs) = Some (Dir a entries) ->
  valid_name name = true ->
  assoc name entries = Some n ->
  sys_stat name fs = inr (stat_of n).
Proof.
  intros Hdir Hname Hentry.
  destruct (valid_name_parts _ Hname) as [Hcomp [Habs [He [Hd Hdd]]]].
  unfold sys_stat, resolve. rewrite He, Habs, Hcomp. cbn [walk].
  rewrite Hdir, Hd, Hdd, lookup_snoc, Hdir, Hentry. cbn [walk].
  rewrite lookup_snoc, Hdir, Hentry. reflexivity.
Qed.

Lemma mode_bits (p : Z) : Z.land (Z.land p 4095) S_IFMT = 0%Z.
Proof. rewrite <- Z.land_assoc. apply Z.land_0_r. Qed.

Lemma S_ISDIR_dir (a : attrs) (entries : list (string * node)) :
  S_ISDIR (st_mode (stat_of (Dir a entries))) = true.
Proof.
  unfold S_ISDIR. cbn [stat_of st_mode].
  rewrite Z.land_lor_distr_l, mode_bits. reflexivity.
Qed.

Lemma S_ISDIR_file (a : attrs) (data : string) :
  S_ISDIR (st_mode (stat_of (File a data))) = false.
Proof.
  unfold S_ISDIR. cbn [stat_of st_mode].
  rewrite Z.land_lor_distr_l, mode_bits. reflexivity.
Qed.

Lemma S_ISDIR_stat_of (n : node) : S_ISDIR (st_mode (stat_of n)) = is_dir n.
Proof. destruct n; [apply S_ISDIR_file | apply S_ISDIR_dir]. Qed.

Lemma lookup_parent (r : node) (q : path) (name : string) (n : node) :
  lookup r (q ++ [name])%list = Some n ->
  exists a entries, lookup r q = Some (Dir a entries) /\ assoc name entries = Some n.
Proof.
  rewrite lookup_snoc. destruct (lookup r q) as [[a data|a entries]|]; try discriminate.
  intros H. now exists a, entries.
Qed.

Lemma lookup_removelast_dir (r : node) (q : path) (a : attrs)
  (entries : list (string * node)) :
  lookup r q = Some (Dir a entries) ->
  exists a' entries', lookup r (removelast q) = Some (Dir a' entries').
Proof.
  intros Hq. destruct q as [|x q0] using rev_ind; [now exists a, entries|].
  rewrite removelast_last. destruct (lookup_parent _ _ _ _ Hq) as [a' [es' [H _]]].
  now exists a', es'.
Qed.

Lemma stat_dot (fs : fsys) (a : attrs) (entries : list (string * node)) :
  lookup (root fs) (cwd fs) = Some (Dir a entries) ->
  sys_stat "." fs = inr (stat_of (Dir a entries)).
Proof.
  intros Hq. unfold sys_stat, resolve.
  change (String.eqb "." "") with false. change (is_absolute ".") with false.
  change (steps ".") with ["."]. cbv beta iota. cbn [walk]. rewrite Hq.
  change (String.eqb "." ".") with true. cbv beta iota. now rewrite Hq.
Qed.

Lemma stat_dotdot (fs : fsys) (a a' : attrs) (entries entries' : list (string * node)) :
  lookup (root fs) (cwd fs) = Some (Dir a entries) ->
  lookup (root fs) (removelast (cwd fs)) = Some (Dir a' entries') ->
  sys_stat ".." fs = inr (stat_of (Dir a' entries')).
Proof.
  intros Hq Hup. unfold sys_stat, resolve.
  change (String.eqb ".." "") with false. change (is_absolute "..") with false.
  change (steps "..") with [".."]. cbv beta iota. cbn [walk]. rewrite Hq.
  change (String.eqb ".." ".") with false. change (String.eqb ".." "..") with true.
  cbv beta iota. now rewrite Hup.
Qed.

(** *** The enumeration *)

Lemma insert_at_perm (A : Type) (n : nat) (x : A) (l : list A) :
  Permutation (insert_at n x l) (x :: l).
Proof.
  unfold insert_at. rewrite <- (firstn_skipn n l) at 3.
  symmetry. apply Permutation_middle.
Qed.

(** [readdir] returns [.], [..] and the name of every entry, nothing else
    and nothing twice over. *)
Lemma readdir_names_perm (fs : fsys) (q : path) (entries : list (string * node)) :
  Permutation (readdir_names fs q entries) ("." :: ".." :: map fst entries).
Proof.
  unfold readdir_names. rewrite insert_at_perm, insert_at_perm. apply perm_swap.
Qed.

Lemma assoc_in_some (name : string) (entries : list (string * node)) :
  In name (map fst entries) -> exists n, assoc name entries = Some n.
Proof.
  induction entries as [|[k n] rest IH]; [contradiction|].
  cbn [map fst assoc In]. intros [-> | Hin].
  - rewrite String.eqb_refl. now exists n.
  - destruct (String.eqb k name); [now exists n | now apply IH].
Qed.

Lemma lines_of_ext (t1 t2 : string -> bool) (names : list string) :
  (forall n, In n names -> t1 n = t2 n) -> lines_of t1 names = lines_of t2 names.
Proof.
  induction names as [|n names IH]; intros H; [reflexivity|].
  cbn [lines_of]. rewrite (H n) by now left. rewrite IH; [reflexivity|].
  intros n' Hn'. apply H. now right.
Qed.

(** The loop of [do_ls] over names that [stat] finds. *)
Lemma ls_loop_lines (fs : fsys) (tagged : string -> bool) (names : list string) :
  (forall n, In n names ->
             exists info, sys_stat n fs = inr info /\ S_ISDIR (st_mode info) = tagged n) ->
  forall (info : stat_t) (w : world),
    w_fs w = fs ->
    w_stdout (ls_loop names info w) = w_stdout w ++ lines_of tagged names
    /\ w_stderr (ls_loop names info w) = w_stderr w.
Proof.
  induction names as [|n names IH]; intros Hstat info w Hfs.
  - cbn [ls_loop lines_of]. now rewrite app_empty_r.
  - cbn [ls_loop lines_of]. rewrite Hfs.
    destruct (Hstat n (or_introl eq_refl)) as [i [-> Htag]]. rewrite Htag.
    assert (Hline :
      (if tagged n
       then put_stdout (pad_right 30 n ++ tab ++ "<dir>" ++ nl) w
       else put_stdout (pad_right 30 n ++ nl) w)
      = put_stdout (ls_line n (tagged n)) w)
      by (unfold ls_line; now destruct (tagged n)).
    rewrite Hline.
    destruct (IH (fun n' H => Hstat n' (or_intror H)) i
                (put_stdout (ls_line n (tagged n)) w) Hfs) as [-> ->].
    cbn [put_stdout w_stdout w_stderr]. now rewrite app_assoc_s.
Qed.

(** What [do_ls] writes for a directory it can open: a line for every name
    [readdir] returns, in the order of the enumeration, tagged when the
    name is that of a directory. *)
Lemma do_ls_output (w : world) (D : string) (q : path) (a : attrs)
  (entries : list (string * node)) :
  resolve (w_fs w) D = inr q ->
  lookup (root (w_fs w)) q = Some (Dir a entries) ->
  forallb valid_name (map fst entries) = true ->
  sys_opendir D (w_fs w) = inr (readdir_names (w_fs w) q entries)
  /\ w_stdout (do_ls D w)
     = w_stdout w
       ++ lines_of (names_directory entries) (readdir_names (w_fs w) q entries)
  /\ w_stderr (do_ls D w) = w_stderr w.
Proof.
  intros Hres Hq Hvalid.
  destruct (lookup_removelast_dir _ _ _ _ Hq) as [a' [entries' Hup]].
  set (fs' := with_cwd q (w_fs w)).
  assert (Hnames : sys_opendir D (w_fs w) = inr (readdir_names (w_fs w) q entries)).
  { unfold sys_opendir. now rewrite Hres, Hq. }
  assert (Hcd : sys_chdir D (w_fs w) = inr fs').
  { unfold sys_chdir. now rewrite Hres, Hq. }
  assert (Hstat : forall n, In n (readdir_names (w_fs w) q entries) ->
            exists info, sys_stat n fs' = inr info
                         /\ S_ISDIR (st_mode info) = names_directory entries n).
  { intros n Hin.
    apply (Permutation_in _ (readdir_names_perm (w_fs w) q entries)) in Hin.
    destruct Hin as [<- | [<- | Hin]].
    - exists (stat_of (Dir a entries)).
      split; [now apply stat_dot | now rewrite S_ISDIR_dir].
    - exists (stat_of (Dir a' entries')).
      split; [now apply (stat_dotdot fs' a a' entries entries') | now rewrite S_ISDIR_dir].
    - destruct (assoc_in_some n entries Hin) as [nd Hnd].
      rewrite forallb_forall in Hvalid. pose proof (Hvalid n Hin) as Hname.
      destruct (valid_name_parts _ Hname) as [_ [_ [_ [Hd Hdd]]]].
      exists (stat_of nd). split; [now apply (stat_entry fs' a entries)|].
      unfold names_directory. now rewrite Hd, Hdd, Hnd, S_ISDIR_stat_of. }
  split; [exact Hnames|].
  unfold do_ls. cbn [enter w_fs w_env]. rewrite Hnames, Hcd.
  match goal with
  | |- context [ls_loop _ ?i ?w0] =>
      destruct (ls_loop_lines fs' (names_directory entries) _ Hstat i w0 eq_refl)
        as [-> ->]
  end.
  split; reflexivity.
Qed.

End Listing.

(** C5 (amended): [do_ls] prints a line for every name [readdir] returns and
    leaves none out.  For a directory whose entries are a regular file [a]
    and a directory [b], the enumeration holds four names, [.], [..], [a]
    and [b] in some order, and [do_ls] appends exactly four lines to
    standard output, in the order of the enumeration: the names of [.], [..]
    and [b] padded to 30 columns and tagged [<dir>], and the name of [a]
    padded to 30 columns with no tag.  Nothing is written to the error
    stream. *)
Theorem ls_file_and_directory (w : world) (dirname : string) (q : path)
  (d fa da : attrs) (entries sub : list (string * node)) (a b data : string) :
  resolve (w_fs w) dirname = inr q ->
  lookup (root (w_fs w)) q = Some (Dir d entries) ->
  Permutation [(a, File fa data); (b, Dir da sub)] entries ->
  valid_name a = true -> valid_name b = true -> a <> b ->
  exists names,
    sys_opendir dirname (w_fs w) = inr names
    /\ Permutation names ["."; ".."; a; b]
    /\ w_stdout (do_ls dirname w)
       = w_stdout w ++ lines_of (fun n => negb (String.eqb n a)) names
    /\ w_stderr (do_ls dirname w) = w_stderr w.
Proof.
  intros Hres Hdir Hperm Ha Hb Hab.
  assert (Hfst : Permutation (map fst entries) [a; b])
    by (symmetry; exact (Permutation_map fst Hperm)).
  assert (Hvalid : forallb valid_name (map fst entries) = true).
  { apply forallb_forall. intros n Hn.
    apply (Permutation_in _ Hfst) in Hn. destruct Hn as [<- | [<- | []]]; assumption. }
  destruct (do_ls_output w dirname q d entries Hres Hdir Hvalid) as [Hopen [Hout Herr]].
  destruct (valid_name_parts _ Ha) as [_ [_ [_ [Hda Hdda]]]].
  assert (Hnames : Permutation (readdir_names (w_fs w) q entries) ["."; ".."; a; b]).
  { rewrite readdir_names_perm. now do 2 apply perm_skip. }
  exists (readdir_names (w_fs w) q entries).
  split; [exact Hopen|]. split; [exact Hnames|]. split; [|exact Herr].
  rewrite Hout. f_equal. apply lines_of_ext. intros n Hn.
  apply (Permutation_in _ Hnames) in Hn. unfold names_directory.
  assert (Hassoc : assoc a entries = Some (File fa data)
                   /\ assoc b entries = Some (Dir da sub)).
  { apply Permutation_length_2_inv in Hperm as [-> | ->]; cbn [assoc];
      rewrite !String.eqb_refl.
    - destruct (String.eqb_spec a b); [contradiction | now split].
    - destruct (String.eqb_spec b a); [now subst | now split]. }
  destruct Hassoc as [Hfile Hsub].
  destruct Hn as [<- | [<- | [<- | [<- | []]]]].
  - now rewrite (String.eqb_sym "." a), Hda.
  - now rewrite (String.eqb_sym ".." a), Hdda.
  - now rewrite Hda, Hdda, Hfile, String.eqb_refl.
  - rewrite Hsub. cbn [is_dir]. rewrite !orb_true_r.
    apply String.eqb_neq in Hab. now rewrite (String.eqb_sym b a), Hab.
Qed.

Lemma ls_file_and_directory_witness :
  exists names,
    sys_opendir "/home/user" (w_fs (Sample.start "")) = inr names
    /\ Permutation names ["."; ".."; "a"; "b"]
    /\ w_stdout (do_ls "/home/user" (Sample.start ""))
       = w_stdout (Sample.start "") ++ lines_of (fun n => negb (String.eqb n "a")) names
    /\ w_stderr (do_ls "/home/user" (Sample.start "")) = w_stderr (Sample.start "").
Proof.
  apply (ls_file_and_directory (Sample.start "") "/home/user" ["home"; "user"]
           Sample.dir_attrs Sample.file_attrs Sample.dir_attrs
           [("a", File Sample.file_attrs "hello"); ("b", Dir Sample.dir_attrs [])]
           [] "a" "b" "hello").
  - reflexivity.
  - reflexivity.
  - apply Permutation_refl.
  - reflexivity.
  - reflexivity.
  - discriminate.
Defined.

(** C5, as stated, fails on the directory /home/user of the sample world,
    whose entries are the file [a] and the directory [b]: [ls] prints four
    lines, those of [.] and [..] besides the two of the claim. *)
Lemma ls_prints_dot_entries_too :
  w_stdout (do_ls "/home/user" (Sample.start ""))
  = ls_line "." true ++ ls_line "a" false ++ ls_line "b" true ++ ls_line ".." true
  /\ w_stdout (do_ls "/home/user" (Sample.start ""))
     <> ls_line "a" false ++ ls_line "b" true
  /\ w_stdout (do_ls "/home/user" (Sample.start ""))
     <> ls_line "b" true ++ ls_line "a" false.
Proof. repeat split; discriminate. Qed.

(** The same directory where [readdir] returns the two names last. *)
Example ls_other_order :
  w_stdout (do_ls "." (Sample.start_dots_after ""))
  = ls_line "a" false ++ ls_line "b" true ++ ls_line "." true ++ ls_line ".." true.
Proof. reflexivity. Qed.

(** ** Matching a line against the command patterns *)

Section Matching.

Lemma prefix_empty (s : string) : String.prefix "" s = true.
Proof. destruct s; reflexivity. Qed.

Lemma char_code_inj (a b : ascii) : char_code a = char_code b -> a = b.
Proof.
  unfold char_code. intros H. apply N2Z.inj in H.
  rewrite <- (ascii_N_embedding a), <- (ascii_N_embedding b). now rewrite H.
Qed.

Lemma char_code_zero (a : ascii) : char_code a = 0%Z -> a = NUL.
Proof. intros H. apply char_code_inj. exact H. Qed.

Lemma c_str_no_nul (bytes : string) : no_nul (c_str bytes) = true.
Proof.
  induction bytes as [|c rest IH]; [reflexivity|].
  cbn [c_str]. destruct (Ascii.eqb c NUL) eqn:Hc; [reflexivity|].
  cbn [no_nul]. now rewrite Hc, IH.
Qed.

Lemma strip_no_nul (s : string) :
  no_nul s = true -> no_nul (strip_trailing_whitespace s) = true.
Proof.
  induction s as [|c rest IH]; [reflexivity|].
  cbn [no_nul strip_trailing_whitespace]. intros H.
  apply andb_true_iff in H as [Hc Hrest]. specialize (IH Hrest).
  destruct (strip_trailing_whitespace rest) as [|c' kept].
  - destruct (isspace c); [reflexivity|]. cbn [no_nul]. now rewrite Hc.
  - cbn [no_nul] in *. now rewrite Hc, IH.
Qed.

(** [strncmp] returns 0 only when its second argument begins the first. *)
Lemma strncmp_zero_prefix (n : nat) :
  forall a b : string,
    strncmp a b n = 0%Z -> no_nul b = true -> String.length b <= n ->
    String.prefix b a = true.
Proof.
  induction n as [|n IH]; intros a b Hcmp Hb Hlen.
  - destruct b; [apply prefix_empty | cbn [String.length] in Hlen; lia].
  - destruct a as [|ca a], b as [|cb b]; cbn [strncmp] in Hcmp; try reflexivity.
    + cbn [no_nul] in Hb. apply andb_true_iff in Hb as [Hcb _].
      assert (cb = NUL) by (apply char_code_zero; lia). subst cb. discriminate.
    + cbn [no_nul] in Hb. apply andb_true_iff in Hb as [_ Hb].
      cbn [String.length] in Hlen. cbn [String.prefix].
      destruct (Ascii.eqb_spec ca cb) as [->|Hne].
      * destruct (ascii_dec cb cb); [|congruence]. apply IH; [assumption..|lia].
      * elim Hne. apply char_code_inj. lia.
Qed.

(** On C strings, and within the bound, [strncmp] returns 0 only on equal
    strings. *)
Lemma strncmp_zero_eq (n : nat) :
  forall a b : string,
    strncmp a b n = 0%Z -> no_nul a = true -> no_nul b = true ->
    String.length b < n -> a = b.
Proof.
  induction n as [|n IH]; intros a b Hcmp Ha Hb Hlen; [lia|].
  destruct a as [|ca a], b as [|cb b]; cbn [strncmp] in Hcmp; try reflexivity.
  - cbn [no_nul] in Hb. apply andb_true_iff in Hb as [Hcb _].
    assert (cb = NUL) by (apply char_code_zero; lia). subst cb. discriminate.
  - cbn [no_nul] in Ha. apply andb_true_iff in Ha as [Hca _].
    assert (ca = NUL) by (apply char_code_zero; lia). subst ca. discriminate.
  - cbn [no_nul] in Ha, Hb. apply andb_true_iff in Ha as [_ Ha].
    apply andb_true_iff in Hb as [_ Hb]. cbn [String.length] in Hlen.
    destruct (Ascii.eqb_spec ca cb) as [->|Hne].
    + f_equal. apply IH; [assumption..|lia].
    + elim Hne. apply char_code_inj. lia.
Qed.

(** A format that starts with the ordinary characters [lit] converts
    something only on an input that starts with them; on any other input the
    destination is left as it was. *)
Lemma scan_literal (lit : list ascii) (ds : list directive) (dst : string) :
  forall input : string,
    String.prefix (string_of_list_ascii lit) input = false ->
    exists n, scan (map Ordinary lit ++ ds) input 0%Z dst = (n, dst)
              /\ (n =? 1)%Z = false.
Proof.
  induction lit as [|c lit IH]; intros input Hpre.
  - cbn [string_of_list_ascii] in Hpre. now rewrite prefix_empty in Hpre.
  - cbn [map app scan]. destruct input as [|c' rest].
    + exists EOF. split; reflexivity.
    + cbn [string_of_list_ascii String.prefix] in Hpre.
      destruct (Ascii.eqb_spec c c') as [->|Hne].
      * destruct (ascii_dec c' c'); [|congruence]. now apply IH.
      * exists 0%Z. split; reflexivity.
Qed.

Lemma sscanf_no_prefix (kw fmt input dst : string) (ds : list directive) :
  parse_format fmt = (map Ordinary (list_ascii_of_string kw) ++ ds)%list ->
  String.prefix kw input = false ->
  exists n, sscanf input fmt dst = (n, dst) /\ (n =? 1)%Z = false.
Proof.
  intros Hfmt Hpre. unfold sscanf. rewrite Hfmt. apply scan_literal.
  now rewrite string_of_list_ascii_of_string.
Qed.

Lemma sscanf_one_prefix (kw fmt input dst arg : string) (ds : list directive)
  (n : Z) :
  parse_format fmt = (map Ordinary (list_ascii_of_string kw) ++ ds)%list ->
  sscanf input fmt dst = (n, arg) -> (n =? 1)%Z = true ->
  String.prefix kw input = true.
Proof.
  intros Hfmt Hscan Hn.
  destruct (String.prefix kw input) eqn:Hpre; [reflexivity|].
  destruct (sscanf_no_prefix kw fmt input dst ds Hfmt Hpre) as [m [Hm Hm1]].
  rewrite Hscan in Hm. injection Hm as -> _. congruence.
Qed.

Lemma strncmp_no_prefix (kw input : string) :
  no_nul kw = true -> String.length kw <= MAX_BUFFER_LENGTH ->
  String.prefix kw input = false ->
  (strncmp input kw MAX_BUFFER_LENGTH =? 0)%Z = false.
Proof.
  intros Hkw Hlen Hpre. apply Z.eqb_neq. intros Hcmp.
  apply strncmp_zero_prefix in Hcmp; [congruence | assumption..].
Qed.

End Matching.

(** ** What the built-in operations leave alone *)

Section Frames.

Lemma cat_loop_frame (fuel : nat) :
  forall (f : open_file) (offset : nat) (buffer : string) (w w' : world),
    cat_loop fuel f offset buffer w = Some w' ->
    w_status w' = w_status w /\ w_calls w' = w_calls w.
Proof.
  induction fuel as [|fuel IH]; intros f offset buffer w w' Hrun; [discriminate|].
  cbn [cat_loop] in Hrun.
  destruct (sys_read f offset buffer CAT_BUFFER) as [[readCount buffer'] offset'].
  destruct (readCount >? 0)%Z.
  - apply IH in Hrun. exact Hrun.
  - injection Hrun as <-. split; reflexivity.
Qed.

Lemma ls_loop_frame (entries : list string) :
  forall (info : stat_t) (w : world),
    w_status (ls_loop entries info w) = w_status w
    /\ w_calls (ls_loop entries info w) = w_calls w.
Proof.
  induction entries as [|d_name rest IH]; intros info w; [split; reflexivity|].
  cbn [ls_loop].
  destruct (sys_stat d_name (w_fs w)) as [e|i];
    [destruct (S_ISDIR (st_mode info)) | destruct (S_ISDIR (st_mode i))];
    match goal with
    | |- context [ls_loop rest ?i ?w0] => destruct (IH i w0) as [-> ->]
    end; split; reflexivity.
Qed.

Lemma do_cd_frame (dirname : string) (w : world) :
  w_status (do_cd dirname w) = w_status w
  /\ w_calls (do_cd dirname w) = (w_calls w ++ [Call_cd dirname])%list.
Proof.
  unfold do_cd.
  destruct (sys_chdir _ (w_fs (enter (Call_cd dirname) w))); split; reflexivity.
Qed.

Lemma do_cat_frame (filename : string) (w : world) :
  w_status (do_cat filename w) = w_status w
  /\ w_calls (do_cat filename w) = (w_calls w ++ [Call_cat filename])%list.
Proof.
  unfold do_cat.
  destruct (sys_open filename (w_fs (enter (Call_cat filename) w))) as [e|f];
    [split; reflexivity|].
  destruct (cat_loop _ f 0 _ (enter (Call_cat filename) w)) as [w'|] eqn:Hrun;
    [|split; reflexivity].
  apply cat_loop_frame in Hrun as [-> ->]. split; reflexivity.
Qed.

Lemma do_stat_frame (filename : string) (w : world) :
  w_status (do_stat filename w) = w_status w
  /\ w_calls (do_stat filename w) = (w_calls w ++ [Call_stat filename])%list.
Proof.
  unfold do_stat.
  destruct (sys_stat filename (w_fs (enter (Call_stat filename) w)));
    split; reflexivity.
Qed.

Lemma do_mkdir_frame (dirname : string) (w : world) :
  w_status (do_mkdir dirname w) = w_status w
  /\ w_calls (do_mkdir dirname w) = (w_calls w ++ [Call_mkdir dirname])%list.
Proof.
  unfold do_mkdir.
  destruct (sys_mkdir dirname 493 (w_fs (enter (Call_mkdir dirname) w)));
    split; reflexivity.
Qed.

Lemma do_rmdir_frame (dirname : string) (w : world) :
  w_status (do_rmdir dirname w) = w_status w
  /\ w_calls (do_rmdir dirname w) = (w_calls w ++ [Call_rmdir dirname])%list.
Proof.
  unfold do_rmdir.
  destruct (sys_rmdir dirname (w_fs (enter (Call_rmdir dirname) w)));
    split; reflexivity.
Qed.

Lemma do_rm_frame (filename : string) (w : world) :
  w_status (do_rm filename w) = w_status w
  /\ w_calls (do_rm filename w) = (w_calls w ++ [Call_rm filename])%list.
Proof.
  unfold do_rm.
  destruct (sys_unlink filename (w_fs (enter (Call_rm filename) w)));
    split; reflexivity.
Qed.

Lemma do_ls_frame (dirname : string) (w : world) :
  w_status (do_ls dirname w) = w_status w
  /\ w_calls (do_ls dirname w) = (w_calls w ++ [Call_ls dirname])%list.
Proof.
  unfold do_ls.
  destruct (sys_opendir dirname (w_fs (enter (Call_ls dirname) w))) as [e|entries];
    [split; reflexivity|].
  match goal with
  | |- context [ls_loop entries ?i ?w0] => destruct (ls_loop_frame entries i w0) as [-> ->]
  end.
  destruct (sys_chdir dirname (w_fs (enter (Call_ls dirname) w))); split; reflexivity.
Qed.

Lemma do_pwd_frame (w : world) :
  w_status (do_pwd w) = w_status w
  /\ w_calls (do_pwd w) = (w_calls w ++ [Call_pwd])%list.
Proof.
  unfold do_pwd.
  destruct (sys_getcwd MAX_PATH_LENGTH (w_fs (enter Call_pwd w))); split; reflexivity.
Qed.

Lemma display_prompt_frame (w : world) :
  w_status (display_prompt w) = w_status w
  /\ w_calls (display_prompt w) = w_calls w
  /\ w_stdin (display_prompt w) = w_stdin w
  /\ w_fs (display_prompt w) = w_fs w
  /\ w_stderr (display_prompt w) = w_stderr w.
Proof.
  unfold display_prompt.
  destruct (sys_getcwd MAX_PATH_LENGTH (w_fs w)); repeat split; reflexivity.
Qed.

End Frames.

(** ** Dispatch *)

Section Dispatch.

Ltac fails_to_match kw fmt H :=
  let n := fresh "n" in
  let Hs := fresh "Hs" in
  let Hn := fresh "Hn" in
  destruct (sscanf_no_prefix kw fmt _ "" [White; Conv_s] eq_refl H) as [n [Hs Hn]];
  rewrite Hs; cbv beta iota; rewrite Hn; clear n Hs Hn.

Ltac bound_of_keyword :=
  assumption || (unfold MAX_BUFFER_LENGTH; cbn [String.length]; lia).

Ltac other_keyword Hno :=
  apply Hno; cbn; tauto.

(** A line that starts with none of the keywords of the patterns of
    [execute_command] and is not [pwd] falls through to the last branch. *)
Lemma execute_command_unknown (buffer : string) (w : world) :
  (forall k, In k pattern_keywords -> String.prefix k buffer = false) ->
  no_nul buffer = true ->
  buffer <> "pwd" ->
  execute_command buffer "" w
  = if negb (strnlen buffer MAX_BUFFER_LENGTH =? 0)
    then put_stderr (unrecognized buffer) w else w.
Proof.
  intros Hno Hnul Hpwd.
  assert (Hcat : String.prefix "cat" buffer = false) by other_keyword Hno.
  assert (Hstat : String.prefix "stat" buffer = false) by other_keyword Hno.
  assert (Hmkdir : String.prefix "mkdir" buffer = false) by other_keyword Hno.
  assert (Hrmdir : String.prefix "rmdir" buffer = false) by other_keyword Hno.
  assert (Hrm : String.prefix "rm" buffer = false) by other_keyword Hno.
  assert (Hls : String.prefix "ls" buffer = false) by other_keyword Hno.
  unfold execute_command.
  fails_to_match "cat" "cat %s" Hcat.
  fails_to_match "stat" "stat %s" Hstat.
  fails_to_match "mkdir" "mkdir %s" Hmkdir.
  fails_to_match "rmdir" "rmdir %s" Hrmdir.
  fails_to_match "rm" "rm %s" Hrm.
  fails_to_match "ls" "ls %s" Hls.
  rewrite (strncmp_no_prefix "ls" buffer eq_refl) by bound_of_keyword.
  destruct (Z.eqb_spec (strncmp buffer "pwd" MAX_BUFFER_LENGTH) 0) as [Hcmp|_];
    [|reflexivity].
  elim Hpwd. apply (strncmp_zero_eq MAX_BUFFER_LENGTH); try assumption;
    [reflexivity | unfold MAX_BUFFER_LENGTH; cbn [String.length]; lia].
Qed.

(** The same for the whole of the loop's body: a line that is neither
    [exit] nor [pwd] and starts with no keyword of a pattern is reported, or
    ignored when nothing is left of it after stripping. *)
Lemma dispatch_line_unknown (line : string) (w : world) :
  (forall k, In k pattern_keywords -> String.prefix k (command_text line) = false) ->
  command_text line <> "exit" ->
  command_text line <> "pwd" ->
  dispatch_line line w
  = if negb (strnlen (command_text line) MAX_BUFFER_LENGTH =? 0)
    then put_stderr (unrecognized (command_text line)) w
    else w.
Proof.
  intros Hno Hexit Hpwd. unfold dispatch_line.
  assert (Hnul : no_nul (command_text line) = true)
    by apply strip_no_nul, c_str_no_nul.
  change (strip_trailing_whitespace (c_str line)) with (command_text line).
  set (buffer := command_text line) in *.
  assert (Hcd : String.prefix "cd" buffer = false) by other_keyword Hno.
  fails_to_match "cd" "cd %s" Hcd.
  rewrite (strncmp_no_prefix "cd" buffer eq_refl) by bound_of_keyword.
  destruct (Z.eqb_spec (strncmp buffer "exit" MAX_BUFFER_LENGTH) 0) as [Hcmp|_].
  - elim Hexit. apply (strncmp_zero_eq MAX_BUFFER_LENGTH); try assumption;
      [reflexivity | unfold MAX_BUFFER_LENGTH; cbn [String.length]; lia].
  - cbn [orb]. now apply execute_command_unknown.
Qed.

Ltac matched_by c frame kw fmt Hs Hn :=
  right; left; exists c;
  destruct frame as [-> ->];
  split; [discriminate|]; split; [reflexivity|]; split; [reflexivity|];
  exact (sscanf_one_prefix kw fmt _ _ _ [White; Conv_s] _ eq_refl Hs Hn).

Ltac equal_to c frame kw Hc :=
  right; left; exists c;
  destruct frame as [-> ->];
  split; [discriminate|]; split; [reflexivity|]; split; [reflexivity|];
  cbn [selects keyword_of];
  apply (strncmp_zero_prefix MAX_BUFFER_LENGTH); [exact Hc | reflexivity |];
  unfold MAX_BUFFER_LENGTH; cbn [String.length]; lia.

Ltac whole_text c frame Hc Hnul :=
  right; left; exists c;
  destruct frame as [-> ->];
  split; [discriminate|]; split; [reflexivity|]; split; [reflexivity|];
  cbn [selects]; apply String.eqb_eq;
  apply (strncmp_zero_eq MAX_BUFFER_LENGTH);
  [exact Hc | exact Hnul | reflexivity |];
  unfold MAX_BUFFER_LENGTH; cbn [String.length]; lia.

(** The three ways through the body of the loop for a line that was read:
    [exit], one built-in operation that the text selects, or the last
    branch of [execute_command]. *)
Lemma dispatch_line_cases (line : string) (w : world) :
  (command_text line = "exit"
   /\ dispatch_line line w = exit 0 (enter Call_exit w))
  \/ (exists c, c <> Call_exit
                /\ w_status (dispatch_line line w) = w_status w
                /\ w_calls (dispatch_line line w) = (w_calls w ++ [c])%list
                /\ selects c (command_text line) = true)
  \/ dispatch_line line w
     = if negb (strnlen (command_text line) MAX_BUFFER_LENGTH =? 0)
       then put_stderr (unrecognized (command_text line)) w
       else w.
Proof.
  assert (Hnul : no_nul (command_text line) = true)
    by apply strip_no_nul, c_str_no_nul.
  unfold dispatch_line.
  change (strip_trailing_whitespace (c_str line)) with (command_text line).
  set (buffer := command_text line) in *.
  destruct (sscanf buffer "cd %s" "") as [n0 f0] eqn:Hs0.
  destruct (n0 =? 1)%Z eqn:Hn0; cbn [orb].
  { matched_by (Call_cd f0) (do_cd_frame f0 w) "cd" "cd %s" Hs0 Hn0. }
  destruct (Z.eqb_spec (strncmp buffer "cd" MAX_BUFFER_LENGTH) 0) as [Hcd|_].
  { equal_to (Call_cd f0) (do_cd_frame f0 w) "cd" Hcd. }
  destruct (Z.eqb_spec (strncmp buffer "exit" MAX_BUFFER_LENGTH) 0) as [Hexit|_].
  { left. split; [|reflexivity].
    apply (strncmp_zero_eq MAX_BUFFER_LENGTH); try assumption;
      [reflexivity | unfold MAX_BUFFER_LENGTH; cbn [String.length]; lia]. }
  unfold execute_command.
  destruct (sscanf buffer "cat %s" f0) as [n1 f1] eqn:Hs1.
  destruct (n1 =? 1)%Z eqn:Hn1.
  { matched_by (Call_cat f1) (do_cat_frame f1 w) "cat" "cat %s" Hs1 Hn1. }
  destruct (sscanf buffer "stat %s" f1) as [n2 f2] eqn:Hs2.
  destruct (n2 =? 1)%Z eqn:Hn2.
  { matched_by (Call_stat f2) (do_stat_frame f2 w) "stat" "stat %s" Hs2 Hn2. }
  destruct (sscanf buffer "mkdir %s" f2) as [n3 f3] eqn:Hs3.
  destruct (n3 =? 1)%Z eqn:Hn3.
  { matched_by (Call_mkdir f3) (do_mkdir_frame f3 w) "mkdir" "mkdir %s" Hs3 Hn3. }
  destruct (sscanf buffer "rmdir %s" f3) as [n4 f4] eqn:Hs4.
  destruct (n4 =? 1)%Z eqn:Hn4.
  { matched_by (Call_rmdir f4) (do_rmdir_frame f4 w) "rmdir" "rmdir %s" Hs4 Hn4. }
  destruct (sscanf buffer "rm %s" f4) as [n5 f5] eqn:Hs5.
  destruct (n5 =? 1)%Z eqn:Hn5.
  { matched_by (Call_rm f5) (do_rm_frame f5 w) "rm" "rm %s" Hs5 Hn5. }
  destruct (sscanf buffer "ls %s" f5) as [n6 f6] eqn:Hs6.
  set (dirname := if strnlen f6 MAX_BUFFER_LENGTH =? 0 then "." else f6).
  destruct (n6 =? 1)%Z eqn:Hn6; cbn [orb].
  { matched_by (Call_ls dirname) (do_ls_frame dirname w) "ls" "ls %s" Hs6 Hn6. }
  destruct (Z.eqb_spec (strncmp buffer "ls" MAX_BUFFER_LENGTH) 0) as [Hls|_].
  { equal_to (Call_ls dirname) (do_ls_frame dirname w) "ls" Hls. }
  destruct (Z.eqb_spec (strncmp buffer "pwd" MAX_BUFFER_LENGTH) 0) as [Hpwd|_].
  { whole_text Call_pwd (do_pwd_frame w) Hpwd Hnul. }
  right. right. reflexivity.
Qed.

End Dispatch.

(** C3 (amended): a line is dispatched to at most one built-in operation,
    and only when the command text selects it: for [cd], [cat], [stat],
    [mkdir], [rmdir], [rm] and [ls] the text has to begin, case-sensitively,
    with the keyword, which need not be a whole token ([catfoo] is [cat]
    with the argument [foo]); for [exit] and [pwd] the text has to be the
    keyword and nothing else.  A line that begins with none of the seven
    and is neither [exit] nor [pwd] is dispatched to no built-in
    operation. *)
Theorem dispatch_needs_keyword_at_start (line : string) (w : world) :
  (w_calls (dispatch_line line w) = w_calls w
   \/ exists c, w_calls (dispatch_line line w) = (w_calls w ++ [c])%list
                /\ In (keyword_of c) keywords
                /\ selects c (command_text line) = true)
  /\ ((forall k, In k pattern_keywords ->
                 String.prefix k (command_text line) = false) ->
      command_text line <> "exit" ->
      command_text line <> "pwd" ->
      w_calls (dispatch_line line w) = w_calls w).
Proof.
  assert (Hkw : forall c, In (keyword_of c) keywords)
    by (intros []; cbn; tauto).
  split.
  - destruct (dispatch_line_cases line w) as [[Htext ->] | [[c [_ [_ [Hc Hsel]]]] | ->]].
    + right. exists Call_exit. rewrite Htext. repeat split. apply Hkw.
    + right. exists c. repeat split; [exact Hc | apply Hkw | exact Hsel].
    + left. destruct (negb _); reflexivity.
  - intros Hno Hexit Hpwd. rewrite dispatch_line_unknown by assumption.
    destruct (negb _); reflexivity.
Qed.

(** C3, as stated, fails on the line [catfoo]: its first token is [catfoo],
    which is none of the keywords, and the line is dispatched to [cat]. *)
Lemma glued_argument_is_dispatched :
  first_token (command_text ("catfoo" ++ nl)) = "catfoo"
  /\ is_keyword "catfoo" = false
  /\ w_calls (main_iteration (Sample.start ("catfoo" ++ nl))) = [Call_cat "foo"].
Proof. repeat split. Qed.

(** C6 (amended): when the command text of the line read is not empty,
    begins with none of the seven keywords matched by a pattern ([cd],
    [cat], [stat], [mkdir], [rmdir], [rm], [ls]) and is neither [exit] nor
    [pwd], one pass of the loop prints the prompt, consumes the line and
    appends exactly [myshell: <line>: No such file or directory] and a
    newline to the error stream; the file system, the working directory and
    the status of the process are as they were, and the loop goes on.  So
    are reported [pwdx], [exitx] and [pwd x]. *)
Theorem unrecognized_line_reported (w : world) (line rest : string) :
  fgets MAX_BUFFER_LENGTH (w_stdin w) = Some (line, rest) ->
  command_text line <> "" ->
  (forall k, In k pattern_keywords -> String.prefix k (command_text line) = false) ->
  command_text line <> "exit" ->
  command_text line <> "pwd" ->
  main_iteration w
  = put_stderr (unrecognized (command_text line)) (set_stdin rest (display_prompt w)).
Proof.
  intros Hread Hne Hno Hexit Hpwd. unfold main_iteration.
  destruct (display_prompt_frame w) as [_ [_ [-> _]]]. rewrite Hread.
  rewrite dispatch_line_unknown by assumption.
  rewrite strnlen_zero by (assumption || (unfold MAX_BUFFER_LENGTH; lia)).
  reflexivity.
Qed.

Lemma unrecognized_line_reported_witness :
  main_iteration (Sample.start ("pwd x" ++ nl))
  = put_stderr ("myshell: pwd x: No such file or directory" ++ nl)
      (set_stdin "" (display_prompt (Sample.start ("pwd x" ++ nl)))).
Proof.
  apply (unrecognized_line_reported (Sample.start ("pwd x" ++ nl))
           ("pwd x" ++ nl) "").
  - reflexivity.
  - discriminate.
  - intros k Hin. cbn in Hin.
    repeat (destruct Hin as [<- | Hin]; [reflexivity|]). contradiction.
  - discriminate.
  - discriminate.
Defined.

(** The line of the specification, and two lines that begin with a keyword
    compared with the whole text. *)
Example foobar_is_reported :
  w_stderr (main_iteration (Sample.start ("foobar" ++ nl)))
  = "myshell: foobar: No such file or directory" ++ nl
  /\ w_stderr (main_iteration (Sample.start ("pwdx" ++ nl)))
     = "myshell: pwdx: No such file or directory" ++ nl
  /\ w_stderr (main_iteration (Sample.start ("exitx" ++ nl)))
     = "myshell: exitx: No such file or directory" ++ nl
  /\ w_calls (main_iteration (Sample.start ("pwdx" ++ nl))) = []
  /\ w_status (main_iteration (Sample.start ("exitx" ++ nl))) = Running.
Proof. repeat split. Qed.

(** C6, as stated, fails on the line [rma]: its first token is no keyword,
    yet nothing is written to the error stream and the file [a] of the
    working directory is removed. *)
Lemma glued_rm_removes_a_file :
  first_token (command_text ("rma" ++ nl)) = "rma"
  /\ is_keyword "rma" = false
  /\ w_stderr (main_iteration (Sample.start ("rma" ++ nl))) = ""
  /\ lookup (root (w_fs (Sample.start ("rma" ++ nl)))) ["home"; "user"; "a"]
     = Some (File Sample.file_attrs "hello")
  /\ lookup (root (w_fs (main_iteration (Sample.start ("rma" ++ nl)))))
       ["home"; "user"; "a"] = None.
Proof. repeat split. Qed.

Section Exit.

(** A line whose first token is [exit] starts with white space or with
    [e], hence with no other keyword. *)
Lemma first_token_exit (buffer : string) :
  first_token buffer = "exit" ->
  forall k, In k keywords -> k <> "exit" -> String.prefix k buffer = false.
Proof.
  intros Htok k Hin Hk.
  destruct buffer as [|c rest]; [discriminate|].
  unfold first_token in Htok. cbn [skip_space] in Htok.
  destruct (isspace c) eqn:Hsp.
  - cbn in Hin.
    repeat (destruct Hin as [<- | Hin];
            [try congruence; cbn [String.prefix];
             match goal with
             | |- (if ascii_dec ?k0 c then _ else _) = false =>
                 destruct (ascii_dec k0 c) as [<-|]; [discriminate Hsp | reflexivity]
             end |]).
    contradiction.
  - cbn [take_word] in Htok. rewrite Hsp in Htok.
    destruct (take_word rest) as [word after]. cbn [fst] in Htok.
    injection Htok as -> _. cbn in Hin.
    repeat (destruct Hin as [<- | Hin]; [try congruence; reflexivity|]).
    contradiction.
Qed.

Lemma first_token_not_empty (buffer : string) :
  first_token buffer = "exit" -> buffer <> "".
Proof. intros H ->. discriminate. Qed.

End Exit.

(** C9: a line whose first token is [exit] but whose command text is not
    exactly [exit] does not end the process: it is reported as an
    unrecognized command on the error stream and nothing else changes.  The
    line whose command text is exactly [exit] ends the process with code 0,
    and it is the only line that changes the status of the process. *)
Theorem exit_must_be_the_whole_line (line : string) (w : world) :
  (first_token (command_text line) = "exit" -> command_text line <> "exit" ->
   dispatch_line line w = put_stderr (unrecognized (command_text line)) w)
  /\ (command_text line = "exit" ->
      dispatch_line line w = exit 0 (enter Call_exit w))
  /\ (w_status (dispatch_line line w) <> w_status w -> command_text line = "exit").
Proof.
  split; [|split].
  - intros Htok Hne. rewrite dispatch_line_unknown.
    + rewrite strnlen_zero;
        [reflexivity | now apply first_token_not_empty | unfold MAX_BUFFER_LENGTH; lia].
    + intros k Hin. apply (first_token_exit _ Htok); cbn in Hin |- *; [tauto|].
      intros ->. repeat (destruct Hin as [Hin | Hin]; [discriminate|]). contradiction.
    + exact Hne.
    + intros Htext. rewrite Htext in Htok. discriminate.
  - intros Htext. unfold dispatch_line.
    change (strip_trailing_whitespace (c_str line)) with (command_text line).
    rewrite Htext. reflexivity.
  - intros Hstatus.
    destruct (dispatch_line_cases line w) as [[Htext _] | [[c [_ [Hc _]]] | Heq]].
    + exact Htext.
    + contradiction.
    + elim Hstatus. rewrite Heq. destruct (negb _); reflexivity.
Qed.

Example exit_now_is_reported :
  let w := main_iteration (Sample.start ("exit now" ++ nl)) in
  w_status w = Running
  /\ w_stderr w = "myshell: exit now: No such file or directory" ++ nl.
Proof. split; reflexivity. Qed.

Example exit_alone_terminates :
  w_status (main_iteration (Sample.start ("exit  " ++ nl))) = Exited 0.
Proof. reflexivity. Qed.

(** ** The loop *)

Section Loop.

Lemma main_exited (fuel : nat) (w : world) (code : Z) :
  w_status w = Exited code -> main fuel w = w.
Proof. intros H. destruct fuel; cbn [main]; [reflexivity | now rewrite H]. Qed.

Lemma main_iteration_at_eof (w : world) :
  w_stdin w = "" -> main_iteration w = display_prompt w.
Proof.
  intros Heof. unfold main_iteration.
  destruct (display_prompt_frame w) as [_ [_ [-> _]]]. now rewrite Heof.
Qed.

(** X19: the process is left only through the [exit] command, with code 0:
    whenever a run of the loop that started in a running process has ended,
    its exit code is 0 and [exit] is among the operations entered. *)
Lemma main_exits_only_through_exit (fuel : nat) :
  forall (w : world) (code : Z),
    w_status w = Running -> w_status (main fuel w) = Exited code ->
    code = 0%Z /\ In Call_exit (w_calls (main fuel w)).
Proof.
  induction fuel as [|fuel IH]; intros w code Hrun Hend; cbn [main] in *;
    [congruence|].
  rewrite Hrun in *.
  destruct (w_status (main_iteration w)) as [|code'] eqn:Hnext;
    [now apply IH|].
  rewrite (main_exited fuel _ code' Hnext) in *.
  unfold main_iteration in *.
  destruct (display_prompt_frame w) as [Hst _].
  destruct (fgets MAX_BUFFER_LENGTH (w_stdin (display_prompt w))) as [[line rest]|];
    [|congruence].
  destruct (dispatch_line_cases line (set_stdin rest (display_prompt w)))
    as [[_ Heq] | [[c [_ [Hc _]]] | Heq]].
  - rewrite Heq in *. cbn [exit w_status] in Hend. injection Hend as <-.
    split; [reflexivity|]. cbn [exit enter w_calls]. apply in_or_app. right. now left.
  - rewrite Hc in Hnext. cbn [set_stdin w_status] in Hnext. congruence.
  - rewrite Heq in Hnext.
    destruct (negb _); cbn [put_stderr set_stdin w_status] in Hnext; congruence.
Qed.

End Loop.

(** C2 (as the code behaves): once standard input is at end-of-file the
    loop never leaves: after any number of passes the process is still
    running, still at end-of-file and has entered no built-in operation;
    [fgets] fails, the body is skipped and the prompt is printed again. *)
Theorem end_of_input_never_exits (fuel : nat) (w : world) :
  w_stdin w = "" -> w_status w = Running ->
  w_status (main fuel w) = Running
  /\ w_stdin (main fuel w) = ""
  /\ w_calls (main fuel w) = w_calls w.
Proof.
  revert w. induction fuel as [|fuel IH]; intros w Heof Hrun; cbn [main].
  - repeat split; assumption.
  - rewrite Hrun, (main_iteration_at_eof w Heof).
    destruct (display_prompt_frame w) as [Hst [Hcalls [Hin _]]].
    destruct (IH (display_prompt w)) as [H1 [H2 H3]]; [congruence..|].
    repeat split; congruence.
Qed.

Lemma end_of_input_never_exits_witness :
  w_status (main 1000 (Sample.start "")) = Running
  /\ w_stdin (main 1000 (Sample.start "")) = ""
  /\ w_calls (main 1000 (Sample.start "")) = w_calls (Sample.start "").
Proof.
  apply (end_of_input_never_exits 1000 (Sample.start "")); reflexivity.
Defined.

(** At end-of-file every pass prints the prompt once more. *)
Example eof_prompts :
  w_stdout (main 3 (Sample.start "")) = "/home/user>/home/user>/home/user>".
Proof. reflexivity. Qed.

(** ** The backward scan of [strip_trailing_whitespace] *)

Section Scan.

Import Buffer.

Lemma get_length (s : string) : String.get (String.length s) s = None.
Proof. induction s as [|c s IH]; [reflexivity | exact IH]. Qed.

Lemma get_some (s : string) :
  forall j, j < String.length s -> exists c, String.get j s = Some c.
Proof.
  induction s as [|c s IH]; intros j Hj; cbn [String.length] in Hj; [lia|].
  destruct j as [|j]; [now exists c|]. cbn [String.get]. apply IH. lia.
Qed.

Lemma all_space_get (s : string) :
  all_space s = true ->
  forall j c, String.get j s = Some c -> isspace c = true.
Proof.
  induction s as [|c0 s IH]; intros Hs j c Hget; [discriminate|].
  cbn [all_space] in Hs. apply andb_true_iff in Hs as [Hc0 Hs].
  destruct j as [|j]; cbn [String.get] in Hget.
  - now injection Hget as <-.
  - now apply (IH Hs j).
Qed.

Lemma holding_at (s : string) (rest : memory) (j : nat) (c : ascii) :
  String.get j s = Some c -> holding s rest (Z.of_nat j) = c.
Proof.
  intros Hget. unfold holding.
  destruct (Z.ltb_spec (Z.of_nat j) 0) as [Hneg|_]; [lia|].
  now rewrite Nat2Z.id, Hget.
Qed.

Lemma holding_end (s : string) (rest : memory) :
  holding s rest (Z.of_nat (String.length s)) = NUL.
Proof.
  unfold holding.
  destruct (Z.ltb_spec (Z.of_nat (String.length s)) 0) as [Hneg|_]; [lia|].
  now rewrite Nat2Z.id, get_length, Z.eqb_refl.
Qed.

Lemma all_space_no_nul (s : string) : all_space s = true -> no_nul s = true.
Proof.
  induction s as [|c s IH]; [reflexivity|].
  cbn [all_space no_nul]. intros H. apply andb_true_iff in H as [Hc Hs].
  rewrite (IH Hs), andb_true_r.
  destruct (Ascii.eqb_spec c NUL) as [->|_]; [discriminate | reflexivity].
Qed.

(** [strnlen] finds the NUL that ends the string the memory holds from
    offset [j]. *)
Lemma strnlen_from_string (s : string) :
  forall (m : memory) (j n : nat),
    (forall k c, String.get k s = Some c -> m (Z.of_nat (j + k)) = c) ->
    m (Z.of_nat (j + String.length s)) = NUL ->
    no_nul s = true -> String.length s < n ->
    strnlen_from m (Z.of_nat j) n = Z.of_nat (String.length s).
Proof.
  induction s as [|c s IH]; intros m j n Hget Hend Hnul Hn;
    (destruct n as [|n]; [lia|]); cbn [strnlen_from String.length] in *.
  - rewrite Nat.add_0_r in Hend. now rewrite Hend.
  - cbn [no_nul] in Hnul. apply andb_true_iff in Hnul as [Hc Hnul].
    apply negb_true_iff in Hc.
    specialize (Hget 0 c eq_refl) as Hj. rewrite Nat.add_0_r in Hj.
    rewrite Hj, Hc.
    replace (Z.of_nat j + 1)%Z with (Z.of_nat (S j)) by lia.
    rewrite (IH m (S j) n); [lia | | | assumption | lia].
    + intros k c' Hk. replace (S j + k) with (j + S k) by lia. now apply Hget.
    + replace (S j + String.length s) with (j + S (String.length s)) by lia.
      exact Hend.
Qed.

Lemma holding_strnlen (s : string) (rest : memory) :
  no_nul s = true -> String.length s < MAX_BUFFER_LENGTH ->
  strnlen_from (holding s rest) 0 MAX_BUFFER_LENGTH = Z.of_nat (String.length s).
Proof.
  intros Hnul Hlen. change 0%Z with (Z.of_nat 0).
  apply strnlen_from_string; try assumption.
  - intros k c Hk. now apply holding_at.
  - apply holding_end.
Qed.

(** The record of accesses only grows. *)
Lemma scan_back_keeps (fuel : nat) :
  forall (m : memory) (i : Z) (log : list access) (a : access),
    In a log -> In a (accesses (scan_back fuel m i log)).
Proof.
  induction fuel as [|fuel IH]; intros m i log a Hin; cbn [scan_back].
  - exact Hin.
  - destruct (isspace (m i)).
    + apply IH. apply in_or_app. now left.
    + cbn [accesses]. apply in_or_app. now left.
Qed.

(** From offset [k - 1], over [k] bytes of white space, the scan reaches
    offset [-1] and loads it. *)
Lemma scan_back_underflow (k : nat) :
  forall (fuel : nat) (m : memory) (log : list access),
    (forall j, j < k -> isspace (m (Z.of_nat j)) = true) ->
    k < fuel ->
    In (Load (-1)) (accesses (scan_back fuel m (Z.of_nat k - 1) log)).
Proof.
  induction k as [|k IH]; intros fuel m log Hsp Hfuel;
    (destruct fuel as [|fuel]; [lia|]); cbn [scan_back].
  - change (Z.of_nat 0 - 1)%Z with (-1)%Z.
    destruct (isspace (m (-1)%Z)).
    + apply scan_back_keeps. apply in_or_app. right. now left.
    + cbn [accesses]. apply in_or_app. right. now left.
  - replace (Z.of_nat (S k) - 1)%Z with (Z.of_nat k) by lia.
    rewrite (Hsp k) by lia.
    apply IH; [|lia].
    intros j Hj. unfold store.
    destruct (Z.eqb_spec (Z.of_nat j) (Z.of_nat k)) as [Heq|_]; [lia|].
    apply Hsp. lia.
Qed.

(** *** What is left of a string after stripping *)

Lemma get_app_l (t u : string) :
  forall j, j < String.length t -> String.get j (t ++ u) = String.get j t.
Proof.
  induction t as [|c t IH]; intros j Hj; cbn [String.length] in Hj; [lia|].
  destruct j as [|j]; [reflexivity|]. cbn [append String.get]. apply IH. lia.
Qed.

Lemma get_app_r (t u : string) :
  forall j, String.get (String.length t + j) (t ++ u) = String.get j u.
Proof. induction t as [|c t IH]; intros j; [reflexivity | apply IH]. Qed.

Lemma get_bound (s : string) :
  forall j c, String.get j s = Some c -> j < String.length s.
Proof.
  induction s as [|c0 s IH]; intros j c Hget; [discriminate|].
  destruct j as [|j]; cbn [String.length]; [lia|].
  cbn [String.get] in Hget. apply IH in Hget. lia.
Qed.

(** Stripping removes a suffix of white space... *)
Lemma strip_split (s : string) :
  exists ws, s = Shell.strip_trailing_whitespace s ++ ws /\ all_space ws = true.
Proof.
  induction s as [|c s [ws [Hs Hws]]]; [now exists ""|].
  cbn [Shell.strip_trailing_whitespace].
  destruct (Shell.strip_trailing_whitespace s) as [|c' kept] eqn:Hstrip.
  - cbn [append] in Hs. subst ws. destruct (isspace c) eqn:Hc.
    + exists (String c s). cbn [append all_space]. now rewrite Hc, Hws.
    + exists s. now split.
  - exists ws. split; [|assumption]. cbn [append]. f_equal. exact Hs.
Qed.

(** ... and what it keeps, if anything, ends with a byte that is not white
    space. *)
Lemma strip_last (s : string) :
  Shell.strip_trailing_whitespace s <> "" ->
  exists c,
    String.get (String.length (Shell.strip_trailing_whitespace s) - 1)
               (Shell.strip_trailing_whitespace s) = Some c
    /\ isspace c = false.
Proof.
  induction s as [|c s IH]; [intros H; now elim H|].
  cbn [Shell.strip_trailing_whitespace].
  destruct (Shell.strip_trailing_whitespace s) as [|c' kept] eqn:Hstrip.
  - destruct (isspace c) eqn:Hc; [intros H; now elim H|]. intros _. now exists c.
  - intros _. destruct IH as [c0 [Hget Hsp]]; [discriminate|].
    exists c0. split; [|assumption].
    cbn [String.length Nat.sub String.get] in *.
    now rewrite Nat.sub_0_r in *.
Qed.

Lemma strip_empty_iff (s : string) :
  Shell.strip_trailing_whitespace s = "" <-> all_space s = true.
Proof.
  induction s as [|c s IH]; [now split|].
  cbn [Shell.strip_trailing_whitespace all_space].
  destruct (Shell.strip_trailing_whitespace s) as [|c' kept].
  - destruct IH as [IH _]. rewrite (IH eq_refl), andb_true_r.
    destruct (isspace c); split; congruence.
  - split; [discriminate|]. intros H. apply andb_true_iff in H as [_ H].
    apply IH in H. discriminate.
Qed.

(** *** The scan when something is left *)

(** Over [k] bytes of white space that follow a byte that is not, the scan
    stops at that byte: the [k] bytes are cleared, no other byte changes and
    every access lies between the two. *)
Lemma scan_back_stops (k : nat) :
  forall (fuel : nat) (m : memory) (p : nat) (log : list access),
    (forall j, p <= j < p + k -> isspace (m (Z.of_nat j)) = true) ->
    isspace (m (Z.of_nat p - 1)%Z) = false ->
    k < fuel ->
    exists m' log',
      scan_back fuel m (Z.of_nat (p + k) - 1) log = mkOutcome m' (log ++ log') true
      /\ (forall j, p <= j < p + k -> m' (Z.of_nat j) = NUL)
      /\ (forall i, (i < Z.of_nat p \/ Z.of_nat (p + k) <= i)%Z -> m' i = m i)
      /\ (forall a, In a log' ->
                    (Z.of_nat p - 1 <= offset_of a < Z.of_nat (p + k))%Z).
Proof.
  induction k as [|k IH]; intros fuel m p log Hsp Hstop Hfuel;
    (destruct fuel as [|fuel]; [lia|]); cbn [scan_back].
  - rewrite Nat.add_0_r, Hstop.
    exists m, [Load (Z.of_nat p - 1)]. repeat split.
    + intros j Hj. lia.
    + destruct H as [<- | []]. cbn [offset_of]. lia.
    + destruct H as [<- | []]. cbn [offset_of]. lia.
  - replace (Z.of_nat (p + S k) - 1)%Z with (Z.of_nat (p + k)) by lia.
    rewrite (Hsp (p + k)) by lia.
    destruct (IH fuel (store m (Z.of_nat (p + k)) NUL) p
                (log ++ [Load (Z.of_nat (p + k)); Store (Z.of_nat (p + k))])%list)
      as [m' [log' [Hrun [Hclear [Hframe Hlog]]]]].
    + intros j Hj. unfold store.
      destruct (Z.eqb_spec (Z.of_nat j) (Z.of_nat (p + k))) as [Heq|_]; [lia|].
      apply Hsp. lia.
    + unfold store.
      destruct (Z.eqb_spec (Z.of_nat p - 1) (Z.of_nat (p + k))) as [Heq|_]; [lia|].
      exact Hstop.
    + lia.
    + replace (Z.of_nat (p + k) - 1 + 1 - 1)%Z with (Z.of_nat (p + k) - 1)%Z in Hrun
        by lia.
      exists m', ([Load (Z.of_nat (p + k)); Store (Z.of_nat (p + k))] ++ log')%list.
      rewrite Hrun, <- app_assoc. split; [reflexivity|]. split; [|split].
      * intros j Hj. destruct (Nat.eq_dec j (p + k)) as [->|Hne].
        -- rewrite Hframe by lia. unfold store. now rewrite Z.eqb_refl.
        -- apply Hclear. lia.
      * intros i Hi. rewrite Hframe by lia. unfold store.
        destruct (Z.eqb_spec i (Z.of_nat (p + k))) as [Heq|_]; [lia | reflexivity].
      * intros a Ha. apply in_app_or in Ha as [Ha | Ha].
        -- destruct Ha as [<- | [<- | []]]; cbn [offset_of]; lia.
        -- apply Hlog in Ha. lia.
Qed.

(** The C string found in a memory that holds [t] from offset [j]. *)
Lemma contents_from_string (t : string) :
  forall (m : memory) (j n : nat),
    (forall k c, String.get k t = Some c -> m (Z.of_nat (j + k)) = c) ->
    m (Z.of_nat (j + String.length t)) = NUL ->
    no_nul t = true -> String.length t < n ->
    contents_from m (Z.of_nat j) n = t.
Proof.
  induction t as [|c t IH]; intros m j n Hget Hend Hnul Hn;
    (destruct n as [|n]; [lia|]); cbn [contents_from String.length] in *.
  - rewrite Nat.add_0_r in Hend. now rewrite Hend.
  - cbn [no_nul] in Hnul. apply andb_true_iff in Hnul as [Hc Hnul].
    apply negb_true_iff in Hc.
    specialize (Hget 0 c eq_refl) as Hj. rewrite Nat.add_0_r in Hj.
    rewrite Hj, Hc. f_equal.
    replace (Z.of_nat j + 1)%Z with (Z.of_nat (S j)) by lia.
    apply IH; [ | | assumption | lia].
    + intros k c' Hk. replace (S j + k) with (j + S k) by lia. now apply Hget.
    + replace (S j + String.length t) with (j + S (String.length t)) by lia.
      exact Hend.
Qed.

End Scan.

(** The byte-level scan and the function on strings used in [main_iteration]
    agree whenever something is left of the line: the scan returns, the
    array then holds [Shell.strip_trailing_whitespace s], and every access
    was inside the array. *)
Lemma scan_agrees_with_strip (s : string) (rest : Buffer.memory) (fuel : nat) :
  no_nul s = true ->
  String.length s < MAX_BUFFER_LENGTH ->
  Shell.strip_trailing_whitespace s <> "" ->
  String.length s < fuel ->
  Buffer.returned (Buffer.strip_trailing_whitespace fuel (Buffer.holding s rest))
  = true
  /\ Buffer.contents
       (Buffer.mem_after
          (Buffer.strip_trailing_whitespace fuel (Buffer.holding s rest)))
     = Shell.strip_trailing_whitespace s
  /\ forallb Buffer.in_bounds
       (Buffer.accesses
          (Buffer.strip_trailing_whitespace fuel (Buffer.holding s rest)))
     = true.
Proof.
  intros Hnul Hlen Hkept Hfuel.
  destruct (strip_split s) as [ws [Hs Hws]].
  destruct (strip_last s Hkept) as [c [Hlast Hc]].
  pose proof (strip_no_nul s Hnul) as Hnul_t.
  set (t := Shell.strip_trailing_whitespace s) in *.
  assert (Hlens : String.length s = String.length t + String.length ws)
    by (rewrite Hs at 1; apply length_app).
  assert (Hp : 0 < String.length t) by (apply get_bound in Hlast; lia).
  assert (Hat : forall j c0, String.get j t = Some c0 ->
                             Buffer.holding s rest (Z.of_nat j) = c0).
  { intros j c0 Hj. apply holding_at. rewrite Hs, get_app_l; [exact Hj|].
    now apply get_bound in Hj. }
  unfold Buffer.strip_trailing_whitespace.
  rewrite (holding_strnlen s rest Hnul Hlen), Hlens.
  destruct (scan_back_stops (String.length ws) fuel (Buffer.holding s rest)
              (String.length t) [])
    as [m' [log' [Hrun [Hclear [Hframe Hlog]]]]].
  - intros j Hj.
    destruct (get_some ws (j - String.length t)) as [c0 Hc0]; [lia|].
    rewrite (holding_at s rest j c0).
    + exact (all_space_get ws Hws _ c0 Hc0).
    + rewrite Hs. replace j with (String.length t + (j - String.length t)) by lia.
      now rewrite get_app_r.
  - replace (Z.of_nat (String.length t) - 1)%Z
      with (Z.of_nat (String.length t - 1)) by lia.
    now rewrite (Hat _ c Hlast).
  - lia.
  - rewrite Hrun. cbn [Buffer.returned Buffer.mem_after Buffer.accesses app].
    split; [reflexivity|]. split.
    + unfold Buffer.contents. change 0%Z with (Z.of_nat 0).
      apply contents_from_string; [ | | assumption | lia].
      * intros k c0 Hk. cbn [Nat.add].
        rewrite Hframe by (apply get_bound in Hk; lia). now apply Hat.
      * cbn [Nat.add]. destruct (String.length ws) as [|k] eqn:Hk.
        -- rewrite Hframe by lia.
           replace (String.length t) with (String.length s) by lia.
           apply holding_end.
        -- apply Hclear. lia.
    + apply forallb_forall. intros a Ha. apply Hlog in Ha.
      unfold Buffer.in_bounds, MAX_BUFFER_LENGTH in *.
      apply andb_true_iff. split; [apply Z.leb_le | apply Z.ltb_lt]; lia.
Qed.

(** C10 (as the code behaves): when the buffer holds white space only, as
    it does after an empty line (a lone newline) is read, or holds the empty
    string, the backward scan runs off the start of the array: it loads the
    byte at offset [-1], whatever the bytes around the string are. *)
Theorem scan_reads_below_the_buffer (s : string) (rest : Buffer.memory)
  (fuel : nat) :
  all_space s = true ->
  String.length s < MAX_BUFFER_LENGTH ->
  String.length s < fuel ->
  In (Buffer.Load (-1))
     (Buffer.accesses (Buffer.strip_trailing_whitespace fuel (Buffer.holding s rest)))
  /\ forallb Buffer.in_bounds
       (Buffer.accesses (Buffer.strip_trailing_whitespace fuel (Buffer.holding s rest)))
     = false.
Proof.
  intros Hsp Hlen Hfuel.
  assert (Hin : In (Buffer.Load (-1))
                   (Buffer.accesses
                      (Buffer.strip_trailing_whitespace fuel (Buffer.holding s rest)))).
  { unfold Buffer.strip_trailing_whitespace.
    assert (Hbytes : forall j, j < String.length s ->
                               isspace (Buffer.holding s rest (Z.of_nat j)) = true).
    { intros j Hj. destruct (get_some s j Hj) as [c Hc].
      rewrite (holding_at s rest j c Hc). exact (all_space_get s Hsp j c Hc). }
    rewrite holding_strnlen by (assumption || now apply all_space_no_nul).
    now apply scan_back_underflow. }
  split; [exact Hin|].
  destruct (forallb Buffer.in_bounds _) eqn:Hall; [|reflexivity].
  rewrite forallb_forall in Hall. specialize (Hall _ Hin). discriminate.
Qed.

Lemma scan_reads_below_the_buffer_witness :
  In (Buffer.Load (-1))
     (Buffer.accesses
        (Buffer.strip_trailing_whitespace 2 (Buffer.holding nl (fun _ => "x"%char))))
  /\ forallb Buffer.in_bounds
       (Buffer.accesses
          (Buffer.strip_trailing_whitespace 2 (Buffer.holding nl (fun _ => "x"%char))))
     = false.
Proof.
  apply (scan_reads_below_the_buffer nl (fun _ => "x"%char) 2).
  - reflexivity.
  - unfold MAX_BUFFER_LENGTH. cbn [String.length nl]. lia.
  - cbn [String.length nl]. lia.
Defined.

(** After an empty line the scan loads offset 0, clears it, and loads
    offset -1. *)
Example empty_line_accesses :
  Buffer.accesses
    (Buffer.strip_trailing_whitespace 2 (Buffer.holding nl (fun _ => "x"%char)))
  = [Buffer.Load 0; Buffer.Store 0; Buffer.Load (-1)].
Proof. reflexivity. Qed.

(** ** Facts about the tree and the path walk *)

Section TreeFacts.

Lemma assoc_map_child (c name : string) (f : node -> node)
  (entries : list (string * node)) :
  assoc name (map (fun e => if String.eqb (fst e) c then (fst e, f (snd e)) else e)
                  entries)
  = if String.eqb name c then option_map f (assoc name entries)
    else assoc name entries.
Proof.
  induction entries as [|[k n] rest IH]; cbn [map assoc fst snd].
  - now destruct (String.eqb name c).
  - destruct (String.eqb_spec k name) as [->|Hk].
    + destruct (String.eqb name c); cbn [assoc]; now rewrite String.eqb_refl.
    + assert (Hkn : String.eqb k name = false) by now apply String.eqb_neq.
      destruct (String.eqb k c); cbn [assoc]; now rewrite Hkn, IH.
Qed.

(** The directory rewritten by [modify_dir] is found where it was, with the
    new entries. *)
Lemma lookup_modify_at (q : path) (h : attrs -> attrs)
  (g : list (string * node) -> list (string * node)) :
  forall (r : node) (a : attrs) (entries : list (string * node)),
    lookup r q = Some (Dir a entries) ->
    lookup (modify_dir q h g r) q = Some (Dir (h a) (g entries)).
Proof.
  induction q as [|c q IH]; intros r a entries Hr.
  - cbn [lookup] in Hr. injection Hr as ->. reflexivity.
  - cbn [lookup] in Hr. destruct r as [a0 data|a0 es0]; [discriminate|].
    destruct (assoc c es0) as [child|] eqn:Hc; [|discriminate].
    cbn [modify_dir lookup]. rewrite assoc_map_child, String.eqb_refl, Hc.
    cbn [option_map]. now apply IH.
Qed.

(** A rewriting that keeps every entry keeps every node of the tree where
    it was, a directory still a directory and a file still the same file. *)
Lemma lookup_modify_keeps (h : attrs -> attrs)
  (g : list (string * node) -> list (string * node)) :
  (forall entries name n, assoc name entries = Some n -> assoc name (g entries) = Some n) ->
  forall (p q : path) (r n : node),
    lookup r p = Some n ->
    exists n', lookup (modify_dir q h g r) p = Some n' /\ is_dir n' = is_dir n.
Proof.
  intros Hg. induction p as [|c p IH]; intros q r n Hr.
  - cbn [lookup] in *. injection Hr as <-.
    destruct r as [a data|a es], q as [|c' q]; eexists; split; reflexivity.
  - cbn [lookup] in Hr. destruct r as [a data|a es]; [discriminate|].
    destruct (assoc c es) as [child|] eqn:Hc; [|discriminate].
    destruct q as [|c' q]; cbn [modify_dir lookup].
    + rewrite (Hg _ _ _ Hc). now exists n.
    + rewrite assoc_map_child, Hc. destruct (String.eqb c c'); cbn [option_map].
      * now apply IH.
      * now exists n.
Qed.

Lemma walk_app (r : node) (comps1 comps2 : list string) :
  forall cur : path,
    walk r cur (comps1 ++ comps2)
    = match walk r cur comps1 with
      | inr q => walk r q comps2
      | inl e => inl e
      end.
Proof.
  induction comps1 as [|c comps1 IH]; intros cur; [reflexivity|].
  cbn [app walk].
  destruct (lookup r cur) as [[a data|a es]|]; try reflexivity.
  destruct (String.eqb c "."); [apply IH|].
  destruct (String.eqb c ".."); [apply IH|].
  destruct (lookup r (cur ++ [c])%list); [apply IH | reflexivity].
Qed.

(** A walk that succeeds in a tree succeeds, with the same result, in any
    tree that has a node of the same kind wherever the first has one. *)
Lemma walk_preserved (r r' : node) (comps : list string) :
  (forall p n, lookup r p = Some n ->
               exists n', lookup r' p = Some n' /\ is_dir n' = is_dir n) ->
  forall cur q : path,
    walk r cur comps = inr q -> walk r' cur comps = inr q.
Proof.
  intros Hkeep. induction comps as [|c comps IH]; intros cur q Hw; [exact Hw|].
  cbn [walk] in *.
  destruct (lookup r cur) as [[a data|a es]|] eqn:Hcur; try discriminate.
  destruct (Hkeep _ _ Hcur) as [n' [-> Hkind]].
  destruct n' as [a' data'|a' es']; [discriminate|].
  destruct (String.eqb c "."); [now apply IH|].
  destruct (String.eqb c ".."); [now apply IH|].
  destruct (lookup r (cur ++ [c])%list) as [n|] eqn:Hnext; [|discriminate].
  destruct (Hkeep _ _ Hnext) as [n'' [-> _]]. now apply IH.
Qed.

End TreeFacts.

(** ** [mkdir], [rmdir], [rm] on the tree *)

Section MakeRemove.

Lemma components_not_empty (p : string) : components p <> [] -> String.eqb p "" = false.
Proof. destruct p; [intros H; now elim H | reflexivity]. Qed.

Lemma assoc_app_old (name : string) (n x : node) (k : string)
  (entries : list (string * node)) :
  assoc name entries = Some n -> assoc name (entries ++ [(k, x)]) = Some n.
Proof.
  induction entries as [|[k0 n0] rest IH]; [discriminate|].
  cbn [app assoc]. destruct (String.eqb k0 name); [trivial | exact IH].
Qed.

Lemma assoc_app_new (name : string) (x : node) (entries : list (string * node)) :
  assoc name entries = None -> assoc name (entries ++ [(name, x)]) = Some x.
Proof.
  induction entries as [|[k0 n0] rest IH]; cbn [app assoc].
  - now rewrite String.eqb_refl.
  - destruct (String.eqb k0 name); [discriminate | exact IH].
Qed.

Lemma remove_entry_absent (name : string) (entries : list (string * node)) :
  assoc name entries = None -> remove_entry name entries = entries.
Proof.
  induction entries as [|[k0 n0] rest IH]; [reflexivity|].
  cbn [assoc remove_entry filter fst]. destruct (String.eqb k0 name); [discriminate|].
  intros H. cbn [negb]. f_equal. now apply IH.
Qed.

Lemma remove_entry_app_new (name : string) (x : node) (entries : list (string * node)) :
  assoc name entries = None -> remove_entry name (entries ++ [(name, x)]) = entries.
Proof.
  intros H. unfold remove_entry. rewrite filter_app. cbn [filter fst].
  rewrite String.eqb_refl. cbn [negb]. rewrite app_nil_r.
  now apply remove_entry_absent.
Qed.

Lemma assoc_remove_entry (name : string) (entries : list (string * node)) :
  assoc name (remove_entry name entries) = None.
Proof.
  induction entries as [|[k0 n0] rest IH]; [reflexivity|].
  cbn [remove_entry filter fst]. destruct (String.eqb k0 name) eqn:Hk; cbn [negb].
  - exact IH.
  - cbn [assoc]. now rewrite Hk.
Qed.

(** What a successful [mkdir] found and did. *)
Lemma mkdir_inversion (p : string) (mode : Z) (fs fs1 : fsys) :
  sys_mkdir p mode fs = inr fs1 ->
  exists (init : list string) (name : string) (q : path) (a : attrs)
         (entries : list (string * node)),
    components p = (init ++ [name])%list
    /\ walk (root fs) (if is_absolute p then [] else cwd fs) init = inr q
    /\ lookup (root fs) q = Some (Dir a entries)
    /\ String.eqb name "." = false /\ String.eqb name ".." = false
    /\ assoc name entries = None
    /\ fs1 = mkFsys (modify_dir q (touch (clock fs) 1)
                       (fun es =>
                          (es ++ [(name, Dir (mkAttrs (Z.land mode (Z.lnot (umask fs)))
                                                      (clock fs) 2 (next_ino fs)) [])])%list)
                       (root fs))
                    (cwd fs) (clock fs) (next_ino fs + 1)%Z (umask fs)
                    (dot_positions fs).
Proof.
  unfold sys_mkdir. intros H.
  destruct (components p) as [|c comps] eqn:Hcomps; [discriminate|].
  set (all := c :: comps) in *.
  destruct (walk (root fs) (if is_absolute p then [] else cwd fs) (removelast all))
    as [e|q] eqn:Hwalk; [discriminate|].
  destruct (lookup (root fs) q) as [[a data|a entries]|] eqn:Hq; try discriminate.
  destruct (String.eqb (last all "") ".") eqn:Hd; [discriminate|].
  destruct (String.eqb (last all "") "..") eqn:Hdd; [discriminate|].
  cbn [orb] in H.
  destruct (assoc (last all "") entries) eqn:Hnew; [discriminate|].
  injection H as <-.
  exists (removelast all), (last all ""), q, a, entries.
  repeat split; try assumption.
  apply app_removelast_last. discriminate.
Qed.

(** After [mkdir], the path walks to the new directory. *)
Lemma mkdir_resolve (p : string) (mode : Z) (fs fs1 : fsys) :
  sys_mkdir p mode fs = inr fs1 ->
  exists (q : path) (name : string) (a : attrs) (entries : list (string * node)),
    resolve fs1 p = inr (q ++ [name])%list
    /\ last (components p) "" = name
    /\ String.eqb name "." = false /\ String.eqb name ".." = false
    /\ lookup (root fs) q = Some (Dir a entries)
    /\ assoc name entries = None
    /\ root fs1
       = modify_dir q (touch (clock fs) 1)
           (fun es =>
              (es ++ [(name, Dir (mkAttrs (Z.land mode (Z.lnot (umask fs)))
                                          (clock fs) 2 (next_ino fs)) [])])%list)
           (root fs)
    /\ cwd fs1 = cwd fs
    /\ clock fs1 = clock fs
    /\ lookup (root fs1) (q ++ [name])%list
       = Some (Dir (mkAttrs (Z.land mode (Z.lnot (umask fs))) (clock fs) 2 (next_ino fs))
                   []).
Proof.
  intros H.
  destruct (mkdir_inversion _ _ _ _ H)
    as [init [name [q [a [entries [Hc [Hw [Hq [Hd [Hdd [Hnew ->]]]]]]]]]]].
  set (d := Dir (mkAttrs (Z.land mode (Z.lnot (umask fs))) (clock fs) 2 (next_ino fs)) []).
  set (g := fun es : list (string * node) => (es ++ [(name, d)])%list).
  set (h := touch (clock fs) 1).
  assert (Hq1 : lookup (modify_dir q h g (root fs)) q = Some (Dir (h a) (g entries)))
    by now apply lookup_modify_at.
  assert (Hnew1 : lookup (modify_dir q h g (root fs)) (q ++ [name])%list = Some d).
  { rewrite lookup_snoc, Hq1. now apply assoc_app_new. }
  exists q, name, a, entries. cbn [root cwd clock].
  repeat split; try assumption.
  - unfold resolve, steps. cbn [root cwd].
    rewrite components_not_empty by (rewrite Hc; now destruct init).
    rewrite Hc, <- app_assoc, walk_app.
    rewrite (walk_preserved (root fs) (modify_dir q h g (root fs)) init) with (q := q);
      [| | exact Hw].
    + cbn [app walk]. rewrite Hq1, Hd, Hdd, Hnew1.
      destruct (ends_with_slash p); cbn [walk]; [|reflexivity].
      rewrite Hnew1. reflexivity.
    + intros p0 n Hp0. apply lookup_modify_keeps; [|exact Hp0].
      intros es k n0 Hk. now apply assoc_app_old.
  - rewrite Hc. apply last_last.
Qed.

End MakeRemove.

Section RoundTrip.

Lemma distinct_assoc (entries : list (string * node)) :
  distinct (map fst entries) = true ->
  forall e, In e entries -> assoc (fst e) entries = Some (snd e).
Proof.
  induction entries as [|[k n] rest IH]; intros Hd e Hin; [contradiction|].
  cbn [map fst distinct] in Hd. apply andb_true_iff in Hd as [Hk Hd].
  apply negb_true_iff in Hk. cbn [assoc].
  destruct Hin as [<- | Hin]; cbn [fst snd]; [now rewrite String.eqb_refl|].
  destruct (String.eqb_spec k (fst e)) as [Heq|_]; [|now apply IH].
  assert (Hex : existsb (String.eqb k) (map fst rest) = true).
  { apply existsb_exists. exists (fst e). split; [now apply in_map|].
    now apply String.eqb_eq. }
  congruence.
Qed.

(** In a well-formed tree, two rewritings of the same directory that undo
    each other on its entries, and on its attributes but for the
    modification time, leave the tree as it was but for that time. *)
Lemma modify_modify_times (q : path) (h1 h2 : attrs -> attrs)
  (g1 g2 : list (string * node) -> list (string * node)) :
  (forall a, a_perm (h2 (h1 a)) = a_perm a
             /\ a_nlink (h2 (h1 a)) = a_nlink a
             /\ a_ino (h2 (h1 a)) = a_ino a) ->
  forall (r : node) (a : attrs) (entries : list (string * node)),
    well_formed r = true ->
    lookup r q = Some (Dir a entries) ->
    g2 (g1 entries) = entries ->
    without_dir_times (modify_dir q h2 g2 (modify_dir q h1 g1 r))
    = without_dir_times r.
Proof.
  intros Hh. induction q as [|c q IH]; intros r a entries Hwf Hr Hg.
  - cbn [lookup] in Hr. injection Hr as ->. cbn [modify_dir without_dir_times].
    rewrite Hg. destruct (Hh a) as [-> [-> ->]]. reflexivity.
  - cbn [lookup] in Hr. destruct r as [a0 data|a0 es0]; [discriminate|].
    destruct (assoc c es0) as [child|] eqn:Hc; [|discriminate].
    cbn [well_formed] in Hwf. apply andb_true_iff in Hwf as [Hdist Hsub].
    cbn [modify_dir without_dir_times]. f_equal. rewrite !map_map.
    apply map_ext_in. intros e Hin.
    destruct (String.eqb (fst e) c) eqn:He; cbn [fst snd]; [|now rewrite He].
    rewrite He. cbn [fst snd]. f_equal. apply String.eqb_eq in He.
    pose proof (distinct_assoc es0 Hdist e Hin) as Hassoc.
    rewrite He, Hc in Hassoc. injection Hassoc as Hchild.
    rewrite forallb_forall in Hsub. specialize (Hsub e Hin).
    apply (IH (snd e) a entries); [assumption | | assumption].
    now rewrite <- Hchild.
Qed.

End RoundTrip.
Section Modes.



End Modes.



(** Under the mask 077 the directory is made with mode 0700, and the
    protection word is 16832. *)
Example mkdir_under_private_mask :
  option_map st_mode
    (match sys_stat "/tmp/x" (w_fs (do_mkdir "/tmp/x" (Sample.start_private ""))) with
     | inr info => Some info
     | inl _ => None
     end)
  = Some 16832%Z.
Proof. reflexivity. Qed.

Section Existing.

(** [mkdir] on a path that names something fails with EEXIST. *)
Lemma mkdir_existing_fails (p : string) (mode : Z) (fs : fsys) (info : stat_t) :
  sys_stat p fs = inr info -> sys_mkdir p mode fs = inl EEXIST.
Proof.
  unfold sys_stat, resolve, steps, sys_mkdir. intros H.
  destruct (String.eqb p "") eqn:Hp; [discriminate|].
  destruct (components p) as [|c comps] eqn:Hc; [reflexivity|].
  set (all := c :: comps) in *.
  assert (Hsplit : all = (removelast all ++ [last all ""])%list)
    by (apply app_removelast_last; discriminate).
  rewrite Hsplit, <- app_assoc, walk_app in H.
  destruct (walk (root fs) (if is_absolute p then [] else cwd fs) (removelast all))
    as [e|q]; [discriminate|].
  cbn [app walk] in H.
  destruct (lookup (root fs) q) as [[a data|a entries]|] eqn:Hq; try discriminate.
  destruct (String.eqb (last all "") "."); [reflexivity|].
  destruct (String.eqb (last all "") ".."); [reflexivity|]. cbn [orb].
  rewrite lookup_snoc, Hq in H.
  destruct (assoc (last all "") entries); [reflexivity | discriminate].
Qed.

End Existing.

(** X3: [mkdir] on a path that already names a file or a directory changes
    nothing in the file system and reports
    [Error making directory <path>: File exists] on the error stream. *)
Theorem mkdir_existing_reported (w : world) (D : string) (info : stat_t) :
  sys_stat D (w_fs w) = inr info ->
  do_mkdir D w
  = put_stderr ("Error making directory " ++ D ++ ": File exists" ++ nl)
      (enter (Call_mkdir D) w).
Proof.
  intros Hstat. unfold do_mkdir. cbn [enter w_fs].
  now rewrite (mkdir_existing_fails D 493 (w_fs w) info Hstat).
Qed.

Lemma mkdir_existing_reported_witness :
  do_mkdir "b" (Sample.start "")
  = put_stderr ("Error making directory b: File exists" ++ nl)
      (enter (Call_mkdir "b") (Sample.start "")).
Proof.
  refine (mkdir_existing_reported (Sample.start "") "b" _ eq_refl).
Defined.

(** ** Removing a leaf *)

Section RemoveLeaf.

Lemma leaf_has_no_child (leaf : node) (c : string) (p : path) :
  is_leaf leaf = true -> lookup leaf (c :: p) = None.
Proof. destruct leaf as [a data|a [|e es]]; cbn; congruence. Qed.

Lemma assoc_remove_other (name c : string) (entries : list (string * node)) :
  c <> name -> assoc c (remove_entry name entries) = assoc c entries.
Proof.
  intros Hne. unfold remove_entry.
  induction entries as [|[k n] rest IH]; [reflexivity|].
  cbn [filter fst assoc].
  destruct (String.eqb_spec k name) as [->|Hk]; cbn [negb].
  - destruct (String.eqb_spec name c); [congruence | exact IH].
  - cbn [assoc]. now rewrite IH.
Qed.

(** Removing the entry of a leaf keeps every other node where it was. *)
Lemma lookup_remove_other (name : string) (h : attrs -> attrs) :
  forall (p0 q : path) (r n leaf : node),
    lookup r (q ++ [name])%list = Some leaf -> is_leaf leaf = true ->
    lookup r p0 = Some n -> p0 <> (q ++ [name])%list ->
    exists n', lookup (modify_dir q h (remove_entry name) r) p0 = Some n'
               /\ is_dir n' = is_dir n.
Proof.
  induction p0 as [|c p0 IH]; intros q r n leaf Hleaf Hl Hr Hne.
  - cbn [lookup] in *. injection Hr as <-.
    destruct r as [a data|a es], q as [|c' q]; eexists; split; reflexivity.
  - cbn [lookup] in Hr. destruct r as [a data|a es]; [discriminate|].
    destruct (assoc c es) as [child|] eqn:Hc; [|discriminate].
    destruct q as [|c' q]; cbn [modify_dir lookup app] in *.
    + destruct (String.eqb_spec c name) as [->|Hcn].
      * rewrite Hc in Hleaf. injection Hleaf as ->.
        destruct p0 as [|c0 p0]; [congruence|].
        now rewrite leaf_has_no_child in Hr.
      * rewrite assoc_remove_other, Hc by assumption. now exists n.
    + rewrite assoc_map_child, Hc.
      destruct (String.eqb_spec c c') as [->|Hcc]; cbn [option_map].
      * rewrite Hc in Hleaf. apply (IH q child n leaf); try assumption. congruence.
      * now exists n.
Qed.

Lemma lookup_removed (name : string) (h : attrs -> attrs) (q : path) (r : node)
  (a : attrs) (entries : list (string * node)) :
  lookup r q = Some (Dir a entries) ->
  lookup (modify_dir q h (remove_entry name) r) (q ++ [name])%list = None.
Proof.
  intros Hq. rewrite lookup_snoc, (lookup_modify_at q h _ r a entries Hq).
  apply assoc_remove_entry.
Qed.

(** Once a leaf is removed, a walk that used to end at it fails with
    ENOENT. *)
Lemma walk_to_removed (r r' : node) (p : path) :
  (forall p0 n, lookup r p0 = Some n -> p0 <> p ->
                exists n', lookup r' p0 = Some n' /\ is_dir n' = is_dir n) ->
  lookup r' p = None ->
  (forall x, lookup r (p ++ [x])%list = None) ->
  forall (comps : list string) (cur : path),
    walk r cur comps = inr p -> comps <> [] ->
    walk r' cur comps = inl ENOENT.
Proof.
  intros Hkeep Hgone Hleaf. induction comps as [|c comps IH]; intros cur Hw Hne;
    [congruence|].
  destruct (list_eq_dec string_dec cur p) as [->|Hcur].
  { cbn [walk]. now rewrite Hgone. }
  cbn [walk] in *.
  destruct (lookup r cur) as [[a data|a es]|] eqn:Hc; try discriminate.
  destruct (Hkeep _ _ Hc Hcur) as [n' [-> Hkind]].
  destruct n' as [a' data'|a' es']; [discriminate|].
  assert (Hstep : forall cur', walk r cur' comps = inr p -> cur' <> p ->
                               walk r' cur' comps = inl ENOENT).
  { intros cur' Hw' Hne'. destruct comps as [|c0 comps0].
    - cbn [walk] in Hw'. congruence.
    - apply IH; [exact Hw' | discriminate]. }
  destruct (String.eqb c "."); [now apply Hstep|].
  destruct (String.eqb c "..").
  - apply Hstep; [exact Hw|]. intros Hup.
    destruct cur as [|x cur0] using rev_ind; [now cbn in Hup|].
    rewrite removelast_last in Hup. subst cur0. now rewrite Hleaf in Hc.
  - destruct (lookup r (cur ++ [c])%list) as [n|] eqn:Hn; [|discriminate].
    destruct (list_eq_dec string_dec (cur ++ [c])%list p) as [Heq|Hneq].
    + now rewrite Heq, Hgone.
    + destruct (Hkeep _ _ Hn Hneq) as [n'' [-> _]]. now apply Hstep.
Qed.

(** The two together: after the entry of a leaf at [q ++ [name]] is
    removed, a path that resolved to the leaf no longer resolves. *)
Lemma stat_after_removal (fs : fsys) (h : attrs -> attrs) (p : string) (q : path)
  (name : string) (leaf : node) :
  resolve fs p = inr (q ++ [name])%list ->
  lookup (root fs) (q ++ [name])%list = Some leaf -> is_leaf leaf = true ->
  sys_stat p (with_root (modify_dir q h (remove_entry name) (root fs)) fs)
  = inl ENOENT.
Proof.
  intros Hres Hl Hleaf.
  destruct (lookup_parent _ _ _ _ Hl) as [a [entries [Hq Hentry]]].
  pose proof (lookup_removed name h q (root fs) a entries Hq) as Hgone.
  unfold sys_stat, resolve in *. cbn [with_root root cwd].
  destruct (String.eqb p ""); [reflexivity|].
  destruct (steps p) as [|c comps] eqn:Hcomps.
  - cbn [walk] in *. injection Hres as ->. now rewrite Hgone.
  - rewrite (walk_to_removed (root fs) _ (q ++ [name])%list);
      [reflexivity | | exact Hgone | | exact Hres | discriminate].
    + intros p0 n Hp0 Hne. now apply (lookup_remove_other name h p0 q (root fs) n leaf).
    + intros x. rewrite lookup_snoc, Hl.
      destruct leaf as [a0 data|a0 [|e es]]; [reflexivity | reflexivity | discriminate].
Qed.

End RemoveLeaf.

Section RemoveInversion.

Lemma rmdir_inversion (p : string) (fs fs' : fsys) :
  sys_rmdir p fs = inr fs' ->
  exists (q : path) (name : string) (a : attrs),
    resolve fs p = inr (q ++ [name])%list
    /\ lookup (root fs) (q ++ [name])%list = Some (Dir a [])
    /\ fs' = with_root (modify_dir q (touch (clock fs) (-1)) (remove_entry name)
                          (root fs)) fs.
Proof.
  unfold sys_rmdir. intros H.
  destruct (resolve fs p) as [e|target]; [discriminate|].
  destruct (String.eqb (last (components p) "") "."); [discriminate|].
  destruct (String.eqb (last (components p) "") ".."); [discriminate|].
  destruct target as [|x l]; [discriminate|]. set (target := x :: l) in *.
  destruct (lookup (root fs) target) as [[a data|a [|e es]]|] eqn:Ht; try discriminate.
  injection H as <-.
  exists (removelast target), (last target ""), a.
  rewrite <- app_removelast_last by discriminate. now repeat split.
Qed.

Lemma unlink_inversion (p : string) (fs fs' : fsys) :
  sys_unlink p fs = inr fs' -> is_dir (root fs) = true ->
  exists (q : path) (name : string) (a : attrs) (data : string),
    resolve fs p = inr (q ++ [name])%list
    /\ lookup (root fs) (q ++ [name])%list = Some (File a data)
    /\ fs' = with_root (modify_dir q (touch (clock fs) 0) (remove_entry name)
                          (root fs)) fs.
Proof.
  unfold sys_unlink. intros H Hroot.
  destruct (resolve fs p) as [e|target]; [discriminate|].
  destruct (lookup (root fs) target) as [[a data|a es]|] eqn:Ht; try discriminate.
  injection H as <-.
  destruct target as [|x l].
  { cbn [lookup] in Ht. injection Ht as Ht. rewrite Ht in Hroot. discriminate. }
  set (target := x :: l) in *.
  exists (removelast target), (last target ""), a, data.
  rewrite <- app_removelast_last by discriminate. now repeat split.
Qed.

End RemoveInversion.

(** X4: after a successful [rm f] the file is gone: [stat] on the same path
    fails with ENOENT; [rm] itself wrote nothing to either stream. *)
Theorem rm_then_stat (w : world) (f : string) (fs' : fsys) :
  is_dir (root (w_fs w)) = true ->
  sys_unlink f (w_fs w) = inr fs' ->
  sys_stat f (w_fs (do_rm f w)) = inl ENOENT
  /\ w_stdout (do_rm f w) = w_stdout w
  /\ w_stderr (do_rm f w) = w_stderr w.
Proof.
  intros Hroot Hrm.
  destruct (unlink_inversion _ _ _ Hrm Hroot) as [q [name [a [data [Hres [Hl Hfs]]]]]].
  unfold do_rm. cbn [enter w_fs]. rewrite Hrm.
  cbn [set_fs w_fs w_stdout w_stderr enter]. rewrite Hfs.
  split; [|split; reflexivity].
  now apply (stat_after_removal (w_fs w) _ f q name (File a data)).
Qed.

Lemma rm_then_stat_witness :
  sys_stat "a" (w_fs (do_rm "a" (Sample.start ""))) = inl ENOENT
  /\ w_stdout (do_rm "a" (Sample.start "")) = w_stdout (Sample.start "")
  /\ w_stderr (do_rm "a" (Sample.start "")) = w_stderr (Sample.start "").
Proof.
  refine (rm_then_stat (Sample.start "") "a" _ eq_refl eq_refl).
Defined.

(** X5: after a successful [rmdir D] the directory is gone: [stat] on the
    same path fails with ENOENT; [rmdir] itself wrote nothing to either
    stream. *)
Theorem rmdir_then_stat (w : world) (D : string) (fs' : fsys) :
  sys_rmdir D (w_fs w) = inr fs' ->
  sys_stat D (w_fs (do_rmdir D w)) = inl ENOENT
  /\ w_stdout (do_rmdir D w) = w_stdout w
  /\ w_stderr (do_rmdir D w) = w_stderr w.
Proof.
  intros Hrm.
  destruct (rmdir_inversion _ _ _ Hrm) as [q [name [a [Hres [Hl Hfs]]]]].
  unfold do_rmdir. cbn [enter w_fs]. rewrite Hrm.
  cbn [set_fs w_fs w_stdout w_stderr enter]. rewrite Hfs.
  split; [|split; reflexivity].
  now apply (stat_after_removal (w_fs w) _ D q name (Dir a [])).
Qed.

Lemma rmdir_then_stat_witness :
  sys_stat "b" (w_fs (do_rmdir "b" (Sample.start ""))) = inl ENOENT
  /\ w_stdout (do_rmdir "b" (Sample.start "")) = w_stdout (Sample.start "")
  /\ w_stderr (do_rmdir "b" (Sample.start "")) = w_stderr (Sample.start "").
Proof.
  refine (rmdir_then_stat (Sample.start "") "b" _ eq_refl).
Defined.

(** X6: when [rmdir] removes the directory the process is in (named by a
    path such as [../b] or an absolute one), the shell goes on with a
    working directory that no longer resolves: [getcwd] fails, so the next
    prompt is not printed and [pwd] prints nothing. *)
Theorem rmdir_of_working_directory (w : world) (D : string) (fs' : fsys) :
  sys_rmdir D (w_fs w) = inr fs' ->
  resolve (w_fs w) D = inr (cwd (w_fs w)) ->
  sys_getcwd MAX_PATH_LENGTH (w_fs (do_rmdir D w)) = inl ENOENT
  /\ display_prompt (do_rmdir D w) = do_rmdir D w
  /\ w_stdout (do_pwd (do_rmdir D w)) = w_stdout w
  /\ w_status (do_pwd (do_rmdir D w)) = w_status w.
Proof.
  intros Hrm Hcwd.
  destruct (rmdir_inversion _ _ _ Hrm) as [q [name [a [Hres [Hl Hfs]]]]].
  rewrite Hres in Hcwd. injection Hcwd as Hcwd.
  destruct (lookup_parent _ _ _ _ Hl) as [a0 [entries [Hq _]]].
  assert (Hfail : sys_getcwd MAX_PATH_LENGTH fs' = inl ENOENT).
  { unfold sys_getcwd. rewrite Hfs. cbn [with_root root cwd].
    now rewrite <- Hcwd, (lookup_removed name _ q (root (w_fs w)) a0 entries Hq). }
  assert (Hw : do_rmdir D w = set_fs fs' (enter (Call_rmdir D) w)).
  { unfold do_rmdir. cbn [enter w_fs]. now rewrite Hrm. }
  rewrite Hw. unfold display_prompt, do_pwd. cbn [set_fs enter w_fs].
  rewrite Hfail. repeat split.
Qed.

Lemma rmdir_of_working_directory_witness :
  sys_getcwd MAX_PATH_LENGTH
    (w_fs (do_rmdir "../b" (do_cd "b" (Sample.start "")))) = inl ENOENT
  /\ display_prompt (do_rmdir "../b" (do_cd "b" (Sample.start "")))
     = do_rmdir "../b" (do_cd "b" (Sample.start ""))
  /\ w_stdout (do_pwd (do_rmdir "../b" (do_cd "b" (Sample.start ""))))
     = w_stdout (do_cd "b" (Sample.start ""))
  /\ w_status (do_pwd (do_rmdir "../b" (do_cd "b" (Sample.start ""))))
     = w_status (do_cd "b" (Sample.start "")).
Proof.
  refine (rmdir_of_working_directory (do_cd "b" (Sample.start "")) "../b" _
            eq_refl eq_refl).
Defined.
(** X1: [mkdir D] followed by [rmdir D].  When [mkdir D] succeeds in a tree
    whose directories have distinct entry names, the [rmdir D] that follows
    succeeds too.  The tree is then as it was before the two commands but
    for the modification times of directories (the parent of [D] was
    written to twice): names, kinds, file contents, permissions, link
    counts and inode numbers are the same.  The working directory is
    unchanged, neither command wrote anything to the output or error
    stream, and [stat] on [D] fails with ENOENT. *)
Theorem mkdir_rmdir_round_trip (w : world) (D : string) (fs1 : fsys) :
  well_formed (root (w_fs w)) = true ->
  sys_mkdir D 493 (w_fs w) = inr fs1 ->
  without_dir_times (root (w_fs (do_rmdir D (do_mkdir D w))))
  = without_dir_times (root (w_fs w))
  /\ cwd (w_fs (do_rmdir D (do_mkdir D w))) = cwd (w_fs w)
  /\ w_stdout (do_rmdir D (do_mkdir D w)) = w_stdout w
  /\ w_stderr (do_rmdir D (do_mkdir D w)) = w_stderr w
  /\ sys_stat D (w_fs (do_rmdir D (do_mkdir D w))) = inl ENOENT.
Proof.
  intros Hwf Hmk.
  destruct (mkdir_resolve _ _ _ _ Hmk)
    as [q [name [a [entries [Hres [Hlast [Hd [Hdd [Hq [Hnew [Hroot [Hcwd [_ Hdir]]]]]]]]]]]]].
  set (h := touch (clock fs1) (-1)).
  set (fs2 := with_root (modify_dir q h (remove_entry name) (root fs1)) fs1).
  assert (Hrm : sys_rmdir D fs1 = inr fs2).
  { unfold sys_rmdir. rewrite Hres, Hlast, Hd, Hdd.
    destruct (q ++ [name])%list as [|x l] eqn:E;
      [now destruct q|].
    rewrite Hdir, <- E, removelast_last, last_last. reflexivity. }
  assert (Hback : without_dir_times (root fs2) = without_dir_times (root (w_fs w))).
  { unfold fs2. cbn [with_root root]. rewrite Hroot.
    apply modify_modify_times with (a := a) (entries := entries); try assumption.
    - intros a0. unfold h, touch. cbn [a_perm a_nlink a_ino]. repeat split. lia.
    - now apply remove_entry_app_new. }
  assert (Hgone : sys_stat D fs2 = inl ENOENT).
  { apply (stat_after_removal fs1 h D q name _ Hres Hdir). reflexivity. }
  assert (Hw : do_rmdir D (do_mkdir D w)
               = set_fs fs2 (enter (Call_rmdir D) (set_fs fs1 (enter (Call_mkdir D) w)))).
  { unfold do_mkdir. cbn [enter w_fs]. rewrite Hmk.
    unfold do_rmdir. cbn [enter set_fs w_fs]. now rewrite Hrm. }
  rewrite Hw. cbn [set_fs enter w_fs w_stdout w_stderr].
  repeat split; assumption.
Qed.

Lemma mkdir_rmdir_round_trip_witness :
  without_dir_times (root (w_fs (do_rmdir "b/new" (do_mkdir "b/new" (Sample.start "")))))
  = without_dir_times (root (w_fs (Sample.start "")))
  /\ cwd (w_fs (do_rmdir "b/new" (do_mkdir "b/new" (Sample.start ""))))
     = cwd (w_fs (Sample.start ""))
  /\ w_stdout (do_rmdir "b/new" (do_mkdir "b/new" (Sample.start ""))) = ""
  /\ w_stderr (do_rmdir "b/new" (do_mkdir "b/new" (Sample.start ""))) = ""
  /\ sys_stat "b/new" (w_fs (do_rmdir "b/new" (do_mkdir "b/new" (Sample.start ""))))
     = inl ENOENT.
Proof.
  refine (mkdir_rmdir_round_trip (Sample.start "") "b/new" _ eq_refl eq_refl).
Defined.

(** The two commands do leave a trace: the parent of the directory carries
    the time of the calls. *)
Example mkdir_rmdir_changes_parent_time :
  option_map st_mtime
    (match sys_stat "b" (w_fs (do_rmdir "b/new" (do_mkdir "b/new" (Sample.start "")))) with
     | inr info => Some info
     | inl _ => None
     end)
  = Some 100%Z
  /\ option_map st_mtime
       (match sys_stat "b" (w_fs (Sample.start "")) with
        | inr info => Some info
        | inl _ => None
        end)
     <> Some 100%Z.
Proof. split; [reflexivity | discriminate]. Qed.

(** ** Commands with an argument *)

Section Arguments.

Lemma scan_literal_match (lit : list ascii) (ds : list directive) (dst : string) :
  forall input : string,
    scan (map Ordinary lit ++ ds) (string_of_list_ascii lit ++ input) 0%Z dst
    = scan ds input 0%Z dst.
Proof.
  induction lit as [|c lit IH]; intros input; [reflexivity|].
  cbn [map app string_of_list_ascii append scan].
  now rewrite Ascii.eqb_refl.
Qed.

Lemma skip_space_app (sep s : string) :
  all_space sep = true -> skip_space (sep ++ s) = skip_space s.
Proof.
  induction sep as [|c sep IH]; [reflexivity|].
  cbn [all_space append skip_space]. intros H.
  apply andb_true_iff in H as [-> H]. now apply IH.
Qed.

Lemma take_word_app (arg rest : string) :
  no_space arg = true -> ends_word rest = true ->
  take_word (arg ++ rest) = (arg, rest).
Proof.
  intros Harg Hrest. induction arg as [|c arg IH].
  - destruct rest as [|c rest]; [reflexivity|].
    cbn [append take_word]. cbn [ends_word] in Hrest. now rewrite Hrest.
  - cbn [no_space] in Harg. apply andb_true_iff in Harg as [Hc Harg].
    apply negb_true_iff in Hc. cbn [append take_word]. now rewrite Hc, IH.
Qed.

(** The pattern [<keyword> %s] on the keyword, any white space, a word and
    whatever follows the word: one conversion, of the word. *)
Lemma sscanf_keyword_argument (kw sep arg rest fmt dst : string) :
  parse_format fmt = (map Ordinary (list_ascii_of_string kw) ++ [White; Conv_s])%list ->
  all_space sep = true -> word arg = true -> ends_word rest = true ->
  sscanf (kw ++ sep ++ arg ++ rest) fmt dst = (1%Z, arg).
Proof.
  intros Hfmt Hsep Hword Hrest. unfold word in Hword.
  apply andb_true_iff in Hword as [Hne Harg]. apply negb_true_iff in Hne.
  unfold sscanf. rewrite Hfmt.
  rewrite <- (string_of_list_ascii_of_string kw) at 2.
  rewrite scan_literal_match. cbn [scan].
  rewrite !skip_space_app by assumption.
  destruct arg as [|c arg]; [discriminate|].
  pose proof Harg as Hc. cbn [no_space] in Hc.
  apply andb_true_iff in Hc as [Hc _]. apply negb_true_iff in Hc.
  cbn [append skip_space]. rewrite Hc. cbn [skip_space]. rewrite Hc.
  change (String c (arg ++ rest)) with (String c arg ++ rest).
  now rewrite take_word_app.
Qed.

Lemma word_not_empty (arg : string) : word arg = true -> arg <> "".
Proof. intros H ->. discriminate. Qed.

End Arguments.

Section ArgumentDispatch.

Variables (line sep arg rest : string) (w : world).
Hypothesis Hsep : all_space sep = true.
Hypothesis Hword : word arg = true.
Hypothesis Hrest : ends_word rest = true.

Ltac start Htext :=
  unfold dispatch_line;
  change (strip_trailing_whitespace (c_str line)) with (command_text line);
  rewrite Htext.

Ltac no_match kw fmt :=
  match goal with
  | |- context [sscanf ?b fmt ?f] =>
      let Hp := fresh "Hp" in
      let n := fresh "n" in
      let Hs := fresh "Hs" in
      let Hn := fresh "Hn" in
      assert (Hp : String.prefix kw b = false) by (assumption || reflexivity);
      destruct (sscanf_no_prefix kw fmt b f [White; Conv_s] eq_refl Hp) as [n [Hs Hn]];
      rewrite Hs; cbv beta iota; rewrite Hn; clear n Hs Hn Hp
  end.

Ltac not_equal kw :=
  match goal with
  | |- context [strncmp ?b kw MAX_BUFFER_LENGTH] =>
      rewrite (strncmp_no_prefix kw b eq_refl)
        by first [ assumption | reflexivity
                 | unfold MAX_BUFFER_LENGTH; cbn [String.length]; lia ]
  end.

Ltac matches kw fmt :=
  match goal with
  | |- context [sscanf _ fmt ?f] =>
      rewrite (sscanf_keyword_argument kw sep arg rest fmt f eq_refl Hsep Hword Hrest);
      cbv beta iota; rewrite Z.eqb_refl
  end.

Lemma dispatch_cd :
  command_text line = "cd" ++ sep ++ arg ++ rest -> dispatch_line line w = do_cd arg w.
Proof. intros Htext. start Htext. matches "cd" "cd %s". reflexivity. Qed.

Lemma dispatch_cat :
  command_text line = "cat" ++ sep ++ arg ++ rest -> dispatch_line line w = do_cat arg w.
Proof.
  intros Htext. start Htext. no_match "cd" "cd %s". not_equal "cd". not_equal "exit".
  cbn [orb]. unfold execute_command. matches "cat" "cat %s". reflexivity.
Qed.

Lemma dispatch_stat :
  command_text line = "stat" ++ sep ++ arg ++ rest -> dispatch_line line w = do_stat arg w.
Proof.
  intros Htext. start Htext. no_match "cd" "cd %s". not_equal "cd". not_equal "exit".
  cbn [orb]. unfold execute_command. no_match "cat" "cat %s".
  matches "stat" "stat %s". reflexivity.
Qed.

Lemma dispatch_mkdir :
  command_text line = "mkdir" ++ sep ++ arg ++ rest ->
  dispatch_line line w = do_mkdir arg w.
Proof.
  intros Htext. start Htext. no_match "cd" "cd %s". not_equal "cd". not_equal "exit".
  cbn [orb]. unfold execute_command. no_match "cat" "cat %s".
  no_match "stat" "stat %s". matches "mkdir" "mkdir %s". reflexivity.
Qed.

Lemma dispatch_rmdir :
  command_text line = "rmdir" ++ sep ++ arg ++ rest ->
  dispatch_line line w = do_rmdir arg w.
Proof.
  intros Htext. start Htext. no_match "cd" "cd %s". not_equal "cd". not_equal "exit".
  cbn [orb]. unfold execute_command. no_match "cat" "cat %s".
  no_match "stat" "stat %s". no_match "mkdir" "mkdir %s".
  matches "rmdir" "rmdir %s". reflexivity.
Qed.

Lemma dispatch_rm :
  command_text line = "rm" ++ sep ++ arg ++ rest ->
  String.prefix "rmdir" (command_text line) = false ->
  dispatch_line line w = do_rm arg w.
Proof.
  intros Htext Hnot. rewrite Htext in Hnot. start Htext.
  no_match "cd" "cd %s". not_equal "cd". not_equal "exit".
  cbn [orb]. unfold execute_command. no_match "cat" "cat %s".
  no_match "stat" "stat %s". no_match "mkdir" "mkdir %s". no_match "rmdir" "rmdir %s".
  matches "rm" "rm %s". reflexivity.
Qed.

Lemma dispatch_ls :
  command_text line = "ls" ++ sep ++ arg ++ rest -> dispatch_line line w = do_ls arg w.
Proof.
  intros Htext. start Htext. no_match "cd" "cd %s". not_equal "cd". not_equal "exit".
  cbn [orb]. unfold execute_command. no_match "cat" "cat %s".
  no_match "stat" "stat %s". no_match "mkdir" "mkdir %s". no_match "rmdir" "rmdir %s".
  no_match "rm" "rm %s". matches "ls" "ls %s". cbn [orb].
  rewrite (strnlen_zero arg MAX_BUFFER_LENGTH (word_not_empty arg Hword))
    by (unfold MAX_BUFFER_LENGTH; lia).
  reflexivity.
Qed.

End ArgumentDispatch.

(** X7: a line made of a keyword, white space (possibly none), a word and
    possibly more text after further white space runs the keyword's
    operation on that word: the text after the first word is ignored.  This
    holds for [cd], [cat], [stat], [mkdir], [rmdir] and [ls], and for [rm]
    provided the line does not start with [rmdir] (whose pattern is tried
    first). *)
Theorem command_with_argument (line sep arg rest : string) (w : world) :
  all_space sep = true -> word arg = true -> ends_word rest = true ->
  (command_text line = "cd" ++ sep ++ arg ++ rest ->
   dispatch_line line w = do_cd arg w)
  /\ (command_text line = "cat" ++ sep ++ arg ++ rest ->
      dispatch_line line w = do_cat arg w)
  /\ (command_text line = "stat" ++ sep ++ arg ++ rest ->
      dispatch_line line w = do_stat arg w)
  /\ (command_text line = "mkdir" ++ sep ++ arg ++ rest ->
      dispatch_line line w = do_mkdir arg w)
  /\ (command_text line = "rmdir" ++ sep ++ arg ++ rest ->
      dispatch_line line w = do_rmdir arg w)
  /\ (command_text line = "rm" ++ sep ++ arg ++ rest ->
      String.prefix "rmdir" (command_text line) = false ->
      dispatch_line line w = do_rm arg w)
  /\ (command_text line = "ls" ++ sep ++ arg ++ rest ->
      dispatch_line line w = do_ls arg w).
Proof.
  intros Hsep Hword Hrest.
  split; [now apply dispatch_cd|].
  split; [now apply dispatch_cat|].
  split; [now apply dispatch_stat|].
  split; [now apply dispatch_mkdir|].
  split; [now apply dispatch_rmdir|].
  split; [now apply dispatch_rm | now apply dispatch_ls].
Qed.

Lemma command_with_argument_witness :
  dispatch_line ("stat   a ignored" ++ nl) (Sample.start "")
  = do_stat "a" (Sample.start "").
Proof.
  refine (proj1 (proj2 (proj2
            (command_with_argument ("stat   a ignored" ++ nl) "   " "a" " ignored"
               (Sample.start "") eq_refl eq_refl eq_refl))) eq_refl).
Defined.

Section Bare.

Lemma substring_all (s : string) (n : nat) :
  String.length s <= n -> String.substring 0 n s = s.
Proof.
  revert n. induction s as [|c s IH]; intros n Hn; [now destruct n|].
  destruct n as [|n]; cbn [String.length] in Hn; [lia|].
  cbn [String.substring]. f_equal. apply IH. lia.
Qed.

Lemma with_cwd_same (fs : fsys) : with_cwd (cwd fs) fs = fs.
Proof. now destruct fs. Qed.

End Bare.

(** X8: [ls] with no argument lists the working directory under the name
    [.] and, unlike [ls D], leaves the process where it was: the kernel
    state after the command is the one before it. *)
Theorem ls_without_argument (line : string) (w : world) (a : attrs)
  (entries : list (string * node)) :
  command_text line = "ls" ->
  lookup (root (w_fs w)) (cwd (w_fs w)) = Some (Dir a entries) ->
  dispatch_line line w = do_ls "." w
  /\ w_fs (dispatch_line line w) = w_fs w.
Proof.
  intros Htext Hcwd.
  assert (Hls : dispatch_line line w = do_ls "." w).
  { unfold dispatch_line.
    change (strip_trailing_whitespace (c_str line)) with (command_text line).
    rewrite Htext. reflexivity. }
  split; [exact Hls|]. rewrite Hls.
  assert (Hres : resolve (w_fs w) "." = inr (cwd (w_fs w))).
  { unfold resolve. change (String.eqb "." "") with false.
    change (is_absolute ".") with false. change (steps ".") with ["."].
    cbv beta iota. cbn [walk]. now rewrite Hcwd. }
  unfold do_ls, sys_opendir, sys_chdir. cbn [enter w_fs w_env].
  rewrite Hres, Hcwd, ls_loop_fs. cbn [set_fs w_fs]. apply with_cwd_same.
Qed.

Lemma ls_without_argument_witness :
  dispatch_line ("ls" ++ nl) (Sample.start "") = do_ls "." (Sample.start "")
  /\ w_fs (dispatch_line ("ls" ++ nl) (Sample.start "")) = w_fs (Sample.start "").
Proof.
  refine (ls_without_argument ("ls" ++ nl) (Sample.start "") _ _ eq_refl eq_refl).
Defined.

(** X9: [cd] with no argument changes to the home directory of the invoking
    user: when [pw_dir] is shorter than [MAX_PATH_LENGTH], so that [strncpy]
    copies it whole with its terminator, and [chdir] to it succeeds, the
    kernel state after the command is the one that [chdir] produces, and
    nothing is written to either stream. *)
Theorem cd_without_argument (line : string) (w : world) (fs' : fsys) :
  command_text line = "cd" ->
  String.length (pw_dir (w_env w)) < MAX_PATH_LENGTH ->
  sys_chdir (pw_dir (w_env w)) (w_fs w) = inr fs' ->
  w_fs (dispatch_line line w) = fs'
  /\ w_stdout (dispatch_line line w) = w_stdout w
  /\ w_stderr (dispatch_line line w) = w_stderr w.
Proof.
  intros Htext Hlen Hcd.
  assert (Hgo : dispatch_line line w = do_cd "" w).
  { unfold dispatch_line.
    change (strip_trailing_whitespace (c_str line)) with (command_text line).
    rewrite Htext. reflexivity. }
  rewrite Hgo. unfold do_cd. cbn [strnlen String.length Nat.min Nat.eqb enter w_env w_fs].
  unfold strncpy. apply Nat.ltb_lt in Hlen. rewrite Hlen, Hcd.
  repeat split.
Qed.

Lemma cd_without_argument_witness :
  w_fs (dispatch_line ("cd" ++ nl) (do_cd "/tmp" (Sample.start "")))
  = with_cwd ["home"; "user"] (w_fs (do_cd "/tmp" (Sample.start "")))
  /\ w_stdout (dispatch_line ("cd" ++ nl) (do_cd "/tmp" (Sample.start "")))
     = w_stdout (do_cd "/tmp" (Sample.start ""))
  /\ w_stderr (dispatch_line ("cd" ++ nl) (do_cd "/tmp" (Sample.start "")))
     = w_stderr (do_cd "/tmp" (Sample.start "")).
Proof.
  refine (cd_without_argument ("cd" ++ nl) (do_cd "/tmp" (Sample.start "")) _
            eq_refl _ eq_refl).
  unfold MAX_PATH_LENGTH. cbn. lia.
Defined.

(** X10: once a line whose command text is [exit] is read, the session is
    over whatever the budget of passes and whatever input remains: the
    prompt was printed, the line consumed, the process has exited with code
    0, and the rest of the input is never read. *)
Theorem exit_ends_the_session (fuel : nat) (w : world) (line rest : string) :
  w_status w = Running ->
  fgets MAX_BUFFER_LENGTH (w_stdin w) = Some (line, rest) ->
  command_text line = "exit" ->
  main (S fuel) w = exit 0 (enter Call_exit (set_stdin rest (display_prompt w))).
Proof.
  intros Hrun Hread Htext. cbn [main]. rewrite Hrun.
  assert (Hit : main_iteration w
                = exit 0 (enter Call_exit (set_stdin rest (display_prompt w)))).
  { unfold main_iteration.
    destruct (display_prompt_frame w) as [_ [_ [-> _]]]. rewrite Hread.
    unfold dispatch_line.
    change (strip_trailing_whitespace (c_str line)) with (command_text line).
    rewrite Htext. reflexivity. }
  rewrite Hit. now apply (main_exited fuel _ 0%Z).
Qed.

Lemma exit_ends_the_session_witness :
  main 8 (Sample.start ("exit" ++ nl ++ "rm a" ++ nl))
  = exit 0 (enter Call_exit
              (set_stdin ("rm a" ++ nl)
                 (display_prompt (Sample.start ("exit" ++ nl ++ "rm a" ++ nl))))).
Proof.
  refine (exit_ends_the_session 7 (Sample.start ("exit" ++ nl ++ "rm a" ++ nl))
            ("exit" ++ nl) ("rm a" ++ nl) eq_refl eq_refl eq_refl).
Defined.

(** X11: a [rm] that fails ends nothing: one pass of the loop on the line
    [rm f], with [f] a word that [unlink] refuses, prints the prompt,
    consumes the line and appends [Error unlinking file f: <reason>] to the
    error stream; the file system and the status of the process are as they
    were. *)
Theorem rm_failure_reported (w : world) (line rest sep f more : string)
  (e : errno) :
  fgets MAX_BUFFER_LENGTH (w_stdin w) = Some (line, rest) ->
  command_text line = "rm" ++ sep ++ f ++ more ->
  String.prefix "rmdir" (command_text line) = false ->
  all_space sep = true -> word f = true -> ends_word more = true ->
  sys_unlink f (w_fs w) = inl e ->
  main_iteration w
  = put_stderr ("Error unlinking file " ++ f ++ ": " ++ strerror e ++ nl)
      (enter (Call_rm f) (set_stdin rest (display_prompt w))).
Proof.
  intros Hread Htext Hnot Hsep Hword Hmore Hrm. unfold main_iteration.
  destruct (display_prompt_frame w) as [_ [_ [Hin [Hfs _]]]]. rewrite Hin, Hread.
  rewrite (dispatch_rm line sep f more _ Hsep Hword Hmore Htext Hnot).
  unfold do_rm. cbn [enter set_stdin w_fs]. now rewrite Hfs, Hrm.
Qed.

Lemma rm_failure_reported_witness :
  main_iteration (Sample.start ("rm nosuch" ++ nl))
  = put_stderr ("Error unlinking file " ++ "nosuch" ++ ": " ++ strerror ENOENT ++ nl)
      (enter (Call_rm "nosuch")
         (set_stdin "" (display_prompt (Sample.start ("rm nosuch" ++ nl))))).
Proof.
  refine (rm_failure_reported (Sample.start ("rm nosuch" ++ nl)) ("rm nosuch" ++ nl)
            "" " " "nosuch" "" ENOENT eq_refl eq_refl eq_refl eq_refl eq_refl eq_refl
            eq_refl).
Defined.
(** ** The listing of any directory *)

(** X12: [ls] on any directory whose entries have valid names prints one
    line per name [readdir] returns, in the order of the enumeration, each
    name padded to 30 columns and tagged [<dir>] exactly when it names a
    directory.  The enumeration holds [.], [..] and the name of every
    entry, at whatever place the file system puts them; [.] and [..] are
    tagged.  Nothing is written to the error stream. *)
Theorem ls_lists_every_entry (w : world) (D : string) (q : path) (a : attrs)
  (entries : list (string * node)) :
  resolve (w_fs w) D = inr q ->
  lookup (root (w_fs w)) q = Some (Dir a entries) ->
  forallb valid_name (map fst entries) = true ->
  exists names,
    sys_opendir D (w_fs w) = inr names
    /\ Permutation names ("." :: ".." :: map fst entries)
    /\ w_stdout (do_ls D w) = w_stdout w ++ lines_of (names_directory entries) names
    /\ names_directory entries "." = true
    /\ names_directory entries ".." = true
    /\ w_stderr (do_ls D w) = w_stderr w.
Proof.
  intros Hres Hq Hvalid.
  destruct (do_ls_output w D q a entries Hres Hq Hvalid) as [Hnames [Hout Herr]].
  exists (readdir_names (w_fs w) q entries).
  split; [exact Hnames|]. split; [apply readdir_names_perm|].
  split; [exact Hout|]. split; [reflexivity|]. split; [reflexivity | exact Herr].
Qed.

Lemma ls_lists_every_entry_witness :
  exists names,
    sys_opendir "/" (w_fs (Sample.start_dots_after "")) = inr names
    /\ Permutation names ["."; ".."; "home"; "tmp"]
    /\ w_stdout (do_ls "/" (Sample.start_dots_after ""))
       = w_stdout (Sample.start_dots_after "")
         ++ lines_of (names_directory
                        [("home", Dir Sample.dir_attrs
                            [("user", Dir Sample.dir_attrs
                                [("a", File Sample.file_attrs "hello");
                                 ("b", Dir Sample.dir_attrs [])])]);
                         ("tmp", Dir Sample.dir_attrs [])])
                     names
    /\ names_directory
         [("home", Dir Sample.dir_attrs
             [("user", Dir Sample.dir_attrs
                 [("a", File Sample.file_attrs "hello");
                  ("b", Dir Sample.dir_attrs [])])]);
          ("tmp", Dir Sample.dir_attrs [])] "." = true
    /\ names_directory
         [("home", Dir Sample.dir_attrs
             [("user", Dir Sample.dir_attrs
                 [("a", File Sample.file_attrs "hello");
                  ("b", Dir Sample.dir_attrs [])])]);
          ("tmp", Dir Sample.dir_attrs [])] ".." = true
    /\ w_stderr (do_ls "/" (Sample.start_dots_after ""))
       = w_stderr (Sample.start_dots_after "").
Proof.
  refine (ls_lists_every_entry (Sample.start_dots_after "") "/" [] Sample.dir_attrs _
            eq_refl eq_refl eq_refl).
Defined.

(** The listing of the root with [.] and [..] enumerated last. *)
Example ls_root_output :
  w_stdout (do_ls "/" (Sample.start_dots_after ""))
  = ls_line "home" true ++ ls_line "tmp" true ++ ls_line "." true ++ ls_line ".." true.
Proof. reflexivity. Qed.

(** X13: [cat] on a directory prints no diagnostic: [open] succeeds, the
    one [read] fails and its result is not examined before the whole array
    is written, so standard output receives the 2048 bytes the
    uninitialised array happened to hold, and the error stream nothing. *)
Theorem cat_directory_writes_the_array (w : world) (filename : string) :
  sys_open filename (w_fs w) = inr Directory ->
  String.length (indet_buffer (w_env w)) = CAT_BUFFER ->
  w_stdout (do_cat filename w) = w_stdout w ++ indet_buffer (w_env w)
  /\ w_stderr (do_cat filename w) = w_stderr w.
Proof.
  intros Hopen Hlen. unfold do_cat. cbn [enter w_fs w_env]. rewrite Hopen.
  cbn [cat_fuel cat_loop sys_read Z.gtb Z.compare put_stdout w_stdout w_stderr enter].
  rewrite substring_all by lia. split; reflexivity.
Qed.

Lemma cat_directory_writes_the_array_witness :
  w_stdout (do_cat "b" (Sample.start ""))
  = w_stdout (Sample.start "") ++ indet_buffer (w_env (Sample.start ""))
  /\ w_stderr (do_cat "b" (Sample.start "")) = w_stderr (Sample.start "").
Proof.
  refine (cat_directory_writes_the_array (Sample.start "") "b" eq_refl eq_refl).
Defined.

(** ** [strip_trailing_whitespace], as a whole *)

(** X14: on a buffer that holds a C string with at least one byte that is
    not white space, the backward scan returns, touches only bytes of the
    array, and leaves in the array the string without its trailing white
    space: the string is [t ++ ws] with [ws] white space only and [t] ending
    in a byte that is not white space, and the array holds [t]. *)
Theorem scan_strips_trailing_white_space (s : string) (rest : Buffer.memory)
  (fuel : nat) :
  no_nul s = true ->
  String.length s < MAX_BUFFER_LENGTH ->
  all_space s = false ->
  String.length s < fuel ->
  exists (t ws : string) (c : ascii),
    s = t ++ ws /\ all_space ws = true
    /\ String.get (String.length t - 1) t = Some c /\ isspace c = false
    /\ Buffer.returned
         (Buffer.strip_trailing_whitespace fuel (Buffer.holding s rest)) = true
    /\ Buffer.contents
         (Buffer.mem_after
            (Buffer.strip_trailing_whitespace fuel (Buffer.holding s rest))) = t
    /\ forallb Buffer.in_bounds
         (Buffer.accesses
            (Buffer.strip_trailing_whitespace fuel (Buffer.holding s rest)))
       = true.
Proof.
  intros Hnul Hlen Hsp Hfuel.
  assert (Hkept : Shell.strip_trailing_whitespace s <> "").
  { intros H. apply strip_empty_iff in H. congruence. }
  destruct (strip_split s) as [ws [Hs Hws]].
  destruct (strip_last s Hkept) as [c [Hlast Hc]].
  destruct (scan_agrees_with_strip s rest fuel Hnul Hlen Hkept Hfuel)
    as [Hret [Hcont Hacc]].
  exists (Shell.strip_trailing_whitespace s), ws, c. repeat split; assumption.
Qed.

Lemma scan_strips_trailing_white_space_witness :
  exists (t ws : string) (c : ascii),
    "ls /tmp  " ++ nl = t ++ ws /\ all_space ws = true
    /\ String.get (String.length t - 1) t = Some c /\ isspace c = false
    /\ Buffer.returned
         (Buffer.strip_trailing_whitespace 20
            (Buffer.holding ("ls /tmp  " ++ nl) (fun _ => " "%char))) = true
    /\ Buffer.contents
         (Buffer.mem_after
            (Buffer.strip_trailing_whitespace 20
               (Buffer.holding ("ls /tmp  " ++ nl) (fun _ => " "%char)))) = t
    /\ forallb Buffer.in_bounds
         (Buffer.accesses
            (Buffer.strip_trailing_whitespace 20
               (Buffer.holding ("ls /tmp  " ++ nl) (fun _ => " "%char))))
       = true.
Proof.
  apply (scan_strips_trailing_white_space ("ls /tmp  " ++ nl) (fun _ => " "%char) 20).
  - reflexivity.
  - unfold MAX_BUFFER_LENGTH. cbn. lia.
  - reflexivity.
  - cbn. lia.
Defined.

(** X15: the function on strings that [main_iteration] uses for the
    stripping is what the byte-level scan computes: whenever something is
    left of the line, the scan returns with the array holding
    [Shell.strip_trailing_whitespace s], every access inside the array. *)
Theorem scan_refines_strip (s : string) (rest : Buffer.memory) (fuel : nat) :
  no_nul s = true ->
  String.length s < MAX_BUFFER_LENGTH ->
  Shell.strip_trailing_whitespace s <> "" ->
  String.length s < fuel ->
  Buffer.returned (Buffer.strip_trailing_whitespace fuel (Buffer.holding s rest))
  = true
  /\ Buffer.contents
       (Buffer.mem_after
          (Buffer.strip_trailing_whitespace fuel (Buffer.holding s rest)))
     = Shell.strip_trailing_whitespace s
  /\ forallb Buffer.in_bounds
       (Buffer.accesses
          (Buffer.strip_trailing_whitespace fuel (Buffer.holding s rest)))
     = true.
Proof. exact (scan_agrees_with_strip s rest fuel). Qed.

Lemma scan_refines_strip_witness :
  Buffer.returned
    (Buffer.strip_trailing_whitespace 20
       (Buffer.holding ("cat a " ++ nl) (fun _ => " "%char))) = true
  /\ Buffer.contents
       (Buffer.mem_after
          (Buffer.strip_trailing_whitespace 20
             (Buffer.holding ("cat a " ++ nl) (fun _ => " "%char))))
     = Shell.strip_trailing_whitespace ("cat a " ++ nl)
  /\ forallb Buffer.in_bounds
       (Buffer.accesses
          (Buffer.strip_trailing_whitespace 20
             (Buffer.holding ("cat a " ++ nl) (fun _ => " "%char))))
     = true.
Proof.
  apply (scan_refines_strip ("cat a " ++ nl) (fun _ => " "%char) 20).
  - reflexivity.
  - unfold MAX_BUFFER_LENGTH. cbn. lia.
  - discriminate.
  - cbn. lia.
Defined.

Lemma main_exits_only_through_exit_witness :
  0%Z = 0%Z
  /\ In Call_exit (w_calls (main 3 (Sample.start ("pwd" ++ nl ++ "exit" ++ nl)))).
Proof.
  exact (main_exits_only_through_exit 3 (Sample.start ("pwd" ++ nl ++ "exit" ++ nl))
           0%Z eq_refl eq_refl).
Defined.

(** ** The bound on the working directory's path *)

(** X16: [display_prompt] and [do_pwd] give [getcwd] an array of
    [MAX_PATH_LENGTH] bytes: in a directory whose absolute path has 256
    bytes or more, [getcwd] fails, the prompt is not printed and [pwd]
    prints nothing. *)
Theorem long_path_prints_nothing (w : world) :
  MAX_PATH_LENGTH <= String.length (path_string (cwd (w_fs w))) ->
  display_prompt w = w
  /\ w_stdout (do_pwd w) = w_stdout w
  /\ w_stderr (do_pwd w) = w_stderr w.
Proof.
  intros Hlong.
  assert (Hfail : exists e, sys_getcwd MAX_PATH_LENGTH (w_fs w) = inl e).
  { unfold sys_getcwd.
    destruct (lookup (root (w_fs w)) (cwd (w_fs w))) as [[a data|a es]|]; eauto.
    destruct (Nat.leb_spec (String.length (path_string (cwd (w_fs w))) + 1)
                MAX_PATH_LENGTH); [lia | eauto]. }
  destruct Hfail as [e Hfail].
  unfold display_prompt, do_pwd. cbn [enter w_fs]. rewrite Hfail. repeat split.
Qed.

Lemma long_path_prints_nothing_witness :
  display_prompt (Sample.deep "") = Sample.deep ""
  /\ w_stdout (do_pwd (Sample.deep "")) = w_stdout (Sample.deep "")
  /\ w_stderr (do_pwd (Sample.deep "")) = w_stderr (Sample.deep "").
Proof.
  apply (long_path_prints_nothing (Sample.deep "")).
  unfold MAX_PATH_LENGTH. vm_compute. lia.
Defined.

(** ** [cd] down and up again *)

(** X17: from a working directory that resolves, [cd name] into one of its
    subdirectories followed by [cd ..] brings the process back: the kernel
    state is the one before the two commands and nothing was written to
    either stream. *)
Theorem cd_down_and_up (w : world) (name : string) (a a' : attrs)
  (entries sub : list (string * node)) :
  lookup (root (w_fs w)) (cwd (w_fs w)) = Some (Dir a entries) ->
  assoc name entries = Some (Dir a' sub) ->
  valid_name name = true ->
  w_fs (do_cd ".." (do_cd name w)) = w_fs w
  /\ w_stdout (do_cd ".." (do_cd name w)) = w_stdout w
  /\ w_stderr (do_cd ".." (do_cd name w)) = w_stderr w.
Proof.
  intros Hcwd Hsub Hname.
  destruct (valid_name_parts _ Hname) as [Hcomp [Habs [He [Hd Hdd]]]].
  set (fs := w_fs w) in *.
  assert (Hdown : sys_chdir name fs = inr (with_cwd (cwd fs ++ [name])%list fs)).
  { unfold sys_chdir, resolve. rewrite He, Habs, Hcomp. cbn [walk].
    rewrite Hcwd, Hd, Hdd, lookup_snoc, Hcwd, Hsub. cbn [walk].
    now rewrite lookup_snoc, Hcwd, Hsub. }
  assert (Hup : sys_chdir ".." (with_cwd (cwd fs ++ [name])%list fs) = inr fs).
  { unfold sys_chdir, resolve.
    change (String.eqb ".." "") with false. change (is_absolute "..") with false.
    change (steps "..") with [".."]. cbv beta iota.
    cbn [walk with_cwd root cwd]. rewrite lookup_snoc, Hcwd, Hsub.
    change (String.eqb ".." ".") with false. change (String.eqb ".." "..") with true.
    cbv beta iota. rewrite removelast_last, Hcwd. now destruct fs. }
  assert (Hne : name <> "") by (intros ->; discriminate).
  assert (H1 : do_cd name w
               = set_fs (with_cwd (cwd fs ++ [name])%list fs) (enter (Call_cd name) w)).
  { unfold do_cd.
    rewrite (strnlen_zero name MAX_PATH_LENGTH Hne) by (unfold MAX_PATH_LENGTH; lia).
    cbn [enter w_fs]. fold fs. now rewrite Hdown. }
  rewrite H1. unfold do_cd.
  rewrite (strnlen_zero ".." MAX_PATH_LENGTH)
    by (discriminate || (unfold MAX_PATH_LENGTH; lia)).
  cbn [enter set_fs w_fs]. rewrite Hup. now subst fs.
Qed.

Lemma cd_down_and_up_witness :
  w_fs (do_cd ".." (do_cd "b" (Sample.start ""))) = w_fs (Sample.start "")
  /\ w_stdout (do_cd ".." (do_cd "b" (Sample.start ""))) = w_stdout (Sample.start "")
  /\ w_stderr (do_cd ".." (do_cd "b" (Sample.start ""))) = w_stderr (Sample.start "").
Proof.
  refine (cd_down_and_up (Sample.start "") "b" _ _ _ _ eq_refl eq_refl eq_refl).
Defined.

(** ** What [cat] writes first *)

Section CatPrefix.

Lemma substring_zero (s : string) (a : nat) : String.substring a 0 s = "".
Proof.
  revert a. induction s as [|c s IH]; intros [|a]; try reflexivity. apply IH.
Qed.

Lemma substring_split (s : string) :
  forall a n m : nat,
    String.substring a (n + m) s
    = String.substring a n s ++ String.substring (a + n) m s.
Proof.
  induction s as [|c s IH]; intros a n m.
  - destruct a, n, m; reflexivity.
  - destruct a as [|a].
    + destruct n as [|n]; [reflexivity|].
      cbn [Nat.add String.substring append]. f_equal. apply (IH 0).
    + cbn [Nat.add String.substring]. apply IH.
Qed.

Lemma substring_clamp (s : string) :
  forall a n : nat,
    String.length s - a <= n ->
    String.substring a n s = String.substring a (String.length s - a) s.
Proof.
  induction s as [|c s IH]; intros a n Hn.
  - destruct a, n; reflexivity.
  - destruct a as [|a]; cbn [String.length Nat.sub] in *.
    + destruct n as [|n]; [lia|]. cbn [String.substring]. f_equal.
      rewrite (IH 0 n) by lia. now rewrite Nat.sub_0_r.
    + cbn [String.substring]. now apply IH.
Qed.

(** The passes of the loop write the rest of the file first, in order and
    unchanged; whatever else they write comes after it. *)
Lemma cat_loop_prefix (fuel : nat) :
  forall (data : string) (offset : nat) (buffer : string) (w0 w' : world),
    String.length buffer = CAT_BUFFER ->
    cat_loop fuel (Regular data) offset buffer w0 = Some w' ->
    exists extra,
      w_stdout w'
      = w_stdout w0 ++ String.substring offset (String.length data - offset) data
        ++ extra.
Proof.
  induction fuel as [|fuel IH]; intros data offset buffer w0 w' Hlen Hrun;
    [discriminate|].
  pose proof (sys_read_buffer_length (Regular data) offset buffer Hlen) as Hbuf.
  cbn [cat_loop] in Hrun. cbn [sys_read fst snd] in Hbuf, Hrun.
  set (chunk := String.substring offset CAT_BUFFER data) in *.
  set (stale := String.substring (String.length chunk)
                  (String.length buffer - String.length chunk) buffer) in *.
  set (left := String.length data - offset) in *.
  set (n := Nat.min CAT_BUFFER left) in *.
  assert (Hchunk : String.length chunk = n) by apply length_substring.
  rewrite (substring_all (chunk ++ stale)) in Hrun by lia.
  rewrite Hchunk in Hrun.
  destruct (Z.gtb_spec (Z.of_nat n) 0) as [Hpos|Hzero].
  - apply IH in Hrun; [|assumption]. destruct Hrun as [extra Hout].
    cbn [put_stdout w_stdout] in Hout.
    destruct (Nat.eq_dec n CAT_BUFFER) as [Hfull|Hpart].
    + exists extra.
      assert (Hstale : stale = "").
      { unfold stale. rewrite Hlen, Hchunk, Hfull, Nat.sub_diag.
        apply substring_zero. }
      rewrite Hstale, app_empty_r in Hout.
      replace left with (CAT_BUFFER + (left - CAT_BUFFER)) by lia.
      rewrite substring_split. fold chunk.
      rewrite Hout, !app_assoc_s. do 2 f_equal.
      rewrite Hfull. f_equal. f_equal. unfold left. lia.
    + exists (stale ++ extra).
      assert (Hn : n = left) by lia.
      assert (Hrest : String.length data - (offset + n) = 0) by (unfold left in *; lia).
      rewrite Hrest, substring_zero in Hout. cbn [append] in Hout.
      unfold left. rewrite <- (substring_clamp data offset CAT_BUFFER) by (fold left; lia).
      fold chunk.
      now rewrite Hout, !app_assoc_s.
  - injection Hrun as <-. exists (chunk ++ stale).
    assert (Hleft : left = 0) by (unfold n, CAT_BUFFER in Hzero; lia).
    cbn [put_stdout w_stdout]. now rewrite Hleft, substring_zero.
Qed.

Lemma cat_loop_stderr (fuel : nat) :
  forall (f : open_file) (offset : nat) (buffer : string) (w0 w' : world),
    cat_loop fuel f offset buffer w0 = Some w' -> w_stderr w' = w_stderr w0.
Proof.
  induction fuel as [|fuel IH]; intros f offset buffer w0 w' Hrun; [discriminate|].
  cbn [cat_loop] in Hrun.
  destruct (sys_read f offset buffer CAT_BUFFER) as [[readCount buffer'] offset'].
  destruct (readCount >? 0)%Z.
  - apply IH in Hrun. exact Hrun.
  - now injection Hrun as <-.
Qed.

End CatPrefix.

(** X18: what [cat] writes for a regular file starts with the file's bytes,
    all of them, in order and unchanged; they are followed by at least 2048
    more bytes (stale content of the array).  Nothing goes to the error
    stream. *)
Theorem cat_output_starts_with_file (w : world) (filename data : string) :
  sys_open filename (w_fs w) = inr (Regular data) ->
  String.length (indet_buffer (w_env w)) = CAT_BUFFER ->
  exists extra,
    w_stdout (do_cat filename w) = w_stdout w ++ data ++ extra
    /\ CAT_BUFFER <= String.length extra
    /\ w_stderr (do_cat filename w) = w_stderr w.
Proof.
  intros Hopen Hlen. unfold do_cat. cbn [enter w_fs w_env]. rewrite Hopen.
  destruct (cat_fuel_suffices (Regular data) (indet_buffer (w_env w))
              (enter (Call_cat filename) w)) as [w' Hrun].
  rewrite Hrun.
  destruct (cat_loop_prefix _ _ _ _ _ _ Hlen Hrun) as [extra Hout].
  pose proof (cat_loop_output _ _ _ _ _ _ Hlen Hrun) as Hsize.
  pose proof (cat_loop_stderr _ _ _ _ _ _ Hrun) as Herr.
  rewrite Nat.sub_0_r, substring_all in Hout by lia.
  cbn [enter w_stdout w_stderr] in *.
  exists extra. split; [exact Hout|]. split; [|exact Herr].
  rewrite Hout, !length_app in Hsize. lia.
Qed.

Lemma cat_output_starts_with_file_witness :
  exists extra,
    w_stdout (do_cat "a" (Sample.start "")) = w_stdout (Sample.start "") ++ "hello" ++ extra
    /\ CAT_BUFFER <= String.length extra
    /\ w_stderr (do_cat "a" (Sample.start "")) = w_stderr (Sample.start "").
Proof.
  refine (cat_output_starts_with_file (Sample.start "") "a" "hello" eq_refl eq_refl).
Defined.
